(** * The peer-to-peer node of the client: model and properties

    A shallow embedding of [client/p2p] (type [P2P] and its methods [New],
    [IsStarted], [GetNumPeers], [Start], [Stop], [onConn], [addAddr],
    [handleProtocol], [protocolHandler], [dialPeers], [dialPeer],
    [handlePing], [pingHandler], [pingPeer], [sendPingToPeer],
    [handlePeerMessage] and [requestAny]) and of [rpc.NewServer].

    Conventions.
    - A Go pointer or interface value is an [option]: [None] is [nil].
    - A Go result pair [(x, err)] is a pair: the code tests [err] and [x]
      separately, and so does the model.
    - Methods run in [Run machine]: a state monad over the node [p] and the
      world of the collaborators, whose results are [Returned], [Panicked]
      (a Go run-time panic) or [Diverged] (a loop that was still running when
      the fuel of the model ran out).
    - Every call that leaves the package (libp2p, the peer store, the logger,
      the cancel function, a message handler) appends an [event] to the
      [trace] and takes its answer from the [Collaborators] record.
    - [time.Time] is an integer number of nanoseconds ([Z]); instants are
      taken far from the bounds of the representation.
    - A [go] statement is an event: the goroutine it starts is not run by
      the caller. [dialPeers] is only ever started that way, on the queue
      that all its goroutines share without a lock: it is followed one
      statement at a time ([dialPeers_step]), and a schedule says whose turn
      it is ([interleaving]): the statements of the goroutines happen one
      after another in some order (the fatal error with which the Go
      run-time may stop a program that it catches at a concurrent map access
      is left out). The order in which [range] hands out the keys of the map
      is an answer of the world.
    - A method of the libp2p host ([Addrs()], [Network().ConnsToPeer]) is
      asked of the host at every call: the node holds the handle only.
    - [bufio] and [io.Copy] follow the Go standard library, over a stream
      that offers [Read], [Write], [Close] and [SetDeadline] only. *)

From Stdlib Require Import ZArith Lia.
From Stdlib.Strings Require Import Byte.
From stdpp Require Import base gmap strings list fin_maps.

(** ** Errors, panics and outcomes *)

Inductive error : Type :=
| ErrNoConfig
| ErrNoChainService
| ErrUninitializedService
| ErrNoHost
| ErrNoPeersService
| errors_New (text : string)
| io_EOF
| io_ErrShortWrite
| io_ErrNoProgress
| net_error (code : nat).

(** [err == io.EOF] *)
Definition is_EOF (e : error) : bool :=
  match e with io_EOF => true | _ => false end.

Inductive panic : Type :=
| nil_dereference
| index_out_of_range (index len : nat).

Inductive outcome (A : Type) : Type :=
| Returned (a : A)
| Panicked (why : panic)
| Diverged.
Arguments Returned {A} a.
Arguments Panicked {A} why.
Arguments Diverged {A}.

Definition Run (S A : Type) : Type := S → outcome A * S.

#[export] Instance Run_ret {S} : MRet (Run S) := λ A a s, (Returned a, s).

#[export] Instance Run_bind {S} : MBind (Run S) := λ A B k c s,
  match c s with
  | (Returned a, s') => k a s'
  | (Panicked why, s') => (Panicked why, s')
  | (Diverged, s') => (Diverged, s')
  end.

Definition raise {S A} (why : panic) : Run S A := λ s, (Panicked why, s).
Definition diverge {S A} : Run S A := λ s, (Diverged, s).

(** [defer d] followed by [body]: [d] runs when [body] returns and when it
    panics. *)
Definition defer {S A} (d : Run S unit) (body : Run S A) : Run S A := λ s,
  match body s with
  | (Diverged, s') => (Diverged, s')
  | (o, s') =>
      match d s' with
      | (Returned _, s'') => (o, s'')
      | (Panicked why, s'') => (Panicked why, s'')
      | (Diverged, s'') => (Diverged, s'')
      end
  end.

(** ** Data model *)

Definition PeerID := string.
Definition Multiaddr := string.
Definition MessageEnum := nat.

Inductive Key := key (n : nat).
Inductive Context := context (n : nat).
Inductive CancelFunc := cancel_func (n : nat).
Inductive Chan := chan (n : nat).
Inductive Conn := conn (n : nat).
Inductive InterfaceChains := chains (n : nat).
Inductive InterfacePeers := peers (n : nat).
Inductive InterfaceSync := syncer (n : nat).
Inductive SyncState_t := mkSyncState.

(** [net.Stream]: a handle, with what [Conn().RemoteMultiaddr()] reports. *)
Record Stream := mkStream { stream_no : nat; RemoteMultiaddr : Multiaddr }.

(** The network host: a handle, with its [ID()]. What [Addrs()] reports is
    the host's answer at the time of the call, in [Collaborators]. *)
Record host_Host := mkHost { ID : PeerID }.

Record PeerInfo := mkPeerInfo { pi_ID : PeerID; pi_Addrs : list Multiaddr }.

(** [clienttypes.InterfacePeer]: [GetID()] and [Cfg().Peer.ID]; the methods
    with effects ([IsWritable], [IsActive], [AddConnection]) are in
    [Collaborators]. *)
Record InterfacePeer := mkPeer { GetID : string; Cfg_Peer_ID : PeerID }.

Record KnownPeer := mkKnownPeer { kp_Peer : option InterfacePeer }.

Record QueuedPeer := mkQueuedPeer { Peer : option InterfacePeer; NextDial : Z }.

Record Message := mkMessage { Kind : MessageEnum; payload : list byte }.

Record OnMessage := mkOnMessage
  { om_Peer : option InterfacePeer; om_Message : option Message }.

Record ConfigP2P := mkConfigP2P
  { Address : string; Pub : Key; Priv : Key; cfg_Context : Context }.

Record ConfigClient := mkConfigClient { cfg_P2P : option ConfigP2P }.

Record State := mkState
  { Chain : option InterfaceChains;
    Config : option ConfigClient;
    SyncState : option SyncState_t;
    Peers : option InterfacePeers;
    Host : option host_Host }.

Record P2P := mkP2P
  { state : option State;
    cfg : option ConfigClient;
    ctx : Context;
    ch : Chan;
    sync : option InterfaceSync;
    cancel : option CancelFunc;
    dialQueue : gmap string (option QueuedPeer) }.

(** [defaults.Defaults], declared outside the files at hand. *)
Record Defaults_t := mkDefaults
  { DialBackoff : Z;
    DialInterval : Z;
    PingInterval : Z;
    PingTimeout : Z;
    RequestInterval : Z;
    ProtocolDot : string;
    ProtocolPing : string }.

(** ** Events *)

Inductive level := Info | Warn | Error.

(** The library calls of [Start], in the order of the source. *)
Inductive libcall : Type :=
| IDFromPublicKey (pub : Key)
| NewMultiaddr (address : string)
| NewPeerstore
| AddPrivKey (priv : Key)
| AddPubKey (pub : Key)
| NewSwarm (c : Context)
| genUpgrader
| NewTCPTransport
| AddTransport
| AddListenAddr
| bhost_New
| dht_New (c : Context)
| dht_Bootstrap (c : Context)
| rhost_Wrap
| NewMdnsService (c : Context)
| RegisterNotifee
| Notify.

Inductive event : Type :=
| ev_logger (l : level) (format : string)
| ev_lib (c : libcall)
| ev_peers_New (c : ConfigClient)
| ev_sync_New (c : ConfigClient)
| ev_cancel (f : CancelFunc)
| ev_Close (s : Stream)
| ev_SetDeadline (s : Stream) (d : Z)
| ev_Read (s : Stream) (room : nat)
| ev_Write (s : Stream) (sent : list byte)
| ev_rand_Read
| ev_NewStream (h : host_Host) (to : PeerID) (protocol : string)
| ev_Peers_Add (pinfo : PeerInfo)
| ev_IsWritable (pr : InterfacePeer)
| ev_IsActive (pr : InterfacePeer)
| ev_go_dialPeers (pr : option InterfacePeer)
| ev_DialPeer (h : host_Host) (to : PeerID)
| ev_AddConnection (pr : InterfacePeer) (c : option Conn)
| ev_Func (kind : MessageEnum) (p : P2P) (peer : option InterfacePeer)
    (m : Message).

Section Model.

(** The state of everything outside the node. *)
Context {W : Type}.

Record world := mkWorld { ext : W; trace : list event }.
Record machine := mkMachine { node : P2P; env : world }.

Definition emit (e : event) : Run world unit := λ w,
  (Returned (), mkWorld (ext w) (trace w ++ [e])).

(** A call to a collaborator: logged, answered by the oracle [f]. *)
Definition call {A} (e : event) (f : W → A * W) : Run world A := λ w,
  (Returned (f (ext w)).1, mkWorld (f (ext w)).2 (trace w ++ [e])).

(** The same without a trace (the clock, the [select]). *)
Definition consult {A} (f : W → A * W) : Run world A := λ w,
  (Returned (f (ext w)).1, mkWorld (f (ext w)).2 (trace w)).

(** An observation of the world that leaves no trace. *)
Definition observe {A} (f : W → A) : Run world A := λ w, (Returned (f (ext w)), w).

Definition lift {A} (c : Run world A) : Run machine A := λ m,
  ((c (env m)).1, mkMachine (node m) (c (env m)).2).

Definition get_node : Run machine P2P := λ m, (Returned (node m), m).
Definition set_node (p : P2P) : Run machine unit := λ m,
  (Returned (), mkMachine p (env m)).

Definition logger_Info (format : string) : Run world unit := emit (ev_logger Info format).
Definition logger_Warn (format : string) : Run world unit := emit (ev_logger Warn format).
Definition logger_Error (format : string) : Run world unit := emit (ev_logger Error format).

(** [handler.Handler]: its declared kind and its function. *)
Record Handler := mkHandler
  { Type_ : MessageEnum;
    Func : P2P → option InterfacePeer → Message → Run machine (option error) }.

(** What the collaborators answer. *)
Record Collaborators := mkCollaborators
  { Defaults : Defaults_t;
    peers_New : ConfigClient → W → (option InterfacePeers * option error) * W;
    sync_New : Context → ConfigClient → InterfaceChains →
               W → (option InterfaceSync * option error) * W;
    lib : libcall → W → option error * W;
    built_Host : W → host_Host;
    Addrs : host_Host → W → list Multiaddr;
    run_cancel : CancelFunc → W → unit * W;
    time_Now : W → Z * W;
    select_Done : Context → Z → W → bool * W;
    range_order : list string → W → list string;
    InfoFromP2pAddr : Multiaddr → option PeerInfo * option error;
    Peers_Add : InterfacePeers → PeerInfo → W → (option KnownPeer * option error) * W;
    IsWritable : InterfacePeer → W → (bool * option error) * W;
    IsActive : InterfacePeer → W → (bool * option error) * W;
    ConnsToPeer : host_Host → PeerID → W → list Conn;
    DialPeer : host_Host → PeerID → W → (option Conn * option error) * W;
    AddConnection : InterfacePeer → option Conn → bool → W → option error * W;
    NewStream : host_Host → PeerID → string → W → (option Stream * option error) * W;
    stream_SetDeadline : Stream → Z → W → option error * W;
    stream_Read : Stream → nat → W → (list byte * option error) * W;
    stream_Write : Stream → list byte → W → (nat * option error) * W;
    stream_Close : Stream → W → unit * W;
    rand_Read : nat → W → (list byte * option error) * W;
    FromEnum : MessageEnum → option Handler * option error }.

Variable col : Collaborators.

(** ** [New] *)

Definition New (ctx : Context) (cancel : option CancelFunc) (ch : Chan)
    (cfg : option ConfigClient) (c : option InterfaceChains)
  : Run world (option P2P * option error) :=
  match cfg with
  | None => mret (None, Some ErrNoConfig)
  | Some cfgv =>
    match cfg_P2P cfgv with
    | None => mret (None, Some (errors_New "nil p2p config"))
    | Some _ =>
      match c with
      | None => mret (None, Some ErrNoChainService)
      | Some cv =>
        '(prs, err) ← call (ev_peers_New cfgv) (peers_New col cfgv);
        match err with
        | Some e => logger_Error "[p2p] err creating new peers";; mret (None, Some e)
        | None =>
          '(snc, err) ← call (ev_sync_New cfgv) (sync_New col ctx cfgv cv);
          match err with
          | Some e => logger_Error "[p2p] err creating syncer";; mret (None, Some e)
          | None =>
            mret (Some {| state := Some {| Chain := c;
                                           Config := cfg;
                                           SyncState := Some mkSyncState;
                                           Peers := prs;
                                           Host := None |};
                          cfg := cfg;
                          ctx := ctx;
                          ch := ch;
                          sync := snc;
                          cancel := cancel;
                          dialQueue := ∅ |}, None)
          end
        end
      end
    end
  end.

(** ** [IsStarted] *)

Definition IsStarted : Run machine bool :=
  p ← get_node;
  match state p with
  | None => mret false
  | Some st =>
    match Host st with
    | None => mret false
    | Some h =>
      addrs ← lift (observe (Addrs col h));
      mret (negb (length addrs =? 0)%nat)
    end
  end.

(** ** [Stop] *)

Definition Stop : Run machine (option error) :=
  p ← get_node;
  match state p with
  | None => mret (Some ErrUninitializedService)
  | Some st =>
    match Host st with
    | None => mret (Some ErrNoHost)
    | Some _ =>
      match cancel p with
      | Some f => lift (call (ev_cancel f) (run_cancel col f))
      | None => mret ()
      end;;
      mret None
    end
  end.

(** ** [Start] *)

(** A library call whose error [Start] logs and returns. *)
Definition step (c : libcall) (format : string)
    (k : Run machine (option error)) : Run machine (option error) :=
  err ← lift (call (ev_lib c) (lib col c));
  match err with
  | Some e => lift (logger_Error format);; mret (Some e)
  | None => k
  end.

(** A library call that reports no error. *)
Definition step_ (c : libcall) : Run machine unit :=
  lift (call (ev_lib c) (lib col c));; mret ().

Definition set_Host (p : P2P) (st : State) (h : host_Host) : P2P :=
  {| state := Some {| Chain := Chain st; Config := Config st;
                      SyncState := SyncState st; Peers := Peers st;
                      Host := Some h |};
     cfg := cfg p; ctx := ctx p; ch := ch p; sync := sync p;
     cancel := cancel p; dialQueue := dialQueue p |}.

Definition Start : Run machine (option error) :=
  p ← get_node;
  match cfg p with
  | None => mret (Some (errors_New "nil config"))
  | Some cfgv =>
  match state p with
  | None => mret (Some (errors_New "nil state"))
  | Some st =>
  match sync p with
  | None => mret (Some (errors_New "err nil sync"))
  | Some _ =>
  (* p.cfg.P2P.Pub: the first use of the P2P sub-config *)
  match cfg_P2P cfgv with
  | None => raise nil_dereference
  | Some c2 =>
  step (IDFromPublicKey (Pub c2)) "[p2p] err generating peer id from public key" (
  step (NewMultiaddr (Address c2)) "[p2p] err parsing address" (
  step_ NewPeerstore;;
  step (AddPrivKey (Priv c2)) "[p2p] err adding private keey to peer store" (
  step (AddPubKey (Pub c2)) "[p2p] err adding public key to peer store" (
  step_ (NewSwarm (cfg_Context c2));;
  step_ genUpgrader;;
  step_ NewTCPTransport;;
  step AddTransport "[p2p] err adding transport to swarmnet" (
  step AddListenAddr "[p2p] err adding swarm listen addr %v to swarmnet" (
  step_ bhost_New;;
  step (dht_New (cfg_Context c2)) "[p2p] err building dht service" (
  step (dht_Bootstrap (cfg_Context c2)) "[p2p] err bootstrapping dht" (
  step_ rhost_Wrap;;
  newNode ← lift (observe (built_Host col));
  addrs ← lift (observe (Addrs col newNode));
  lift (foldr (λ _ k, logger_Info "[p2p] %d: %s/ipfs/%s";; k) (mret ())
              addrs);;
  step (NewMdnsService (cfg_Context c2)) "[p2p] err starting discover service" (
  step_ RegisterNotifee;;
  step_ Notify;;
  set_node (set_Host p st newNode);;
  mret None)))))))))
  end end end end.

(** ** Streams *)

(** A method of the interface value [stream]: a nil interface has none,
    and evaluating one panics. *)
Definition with_stream {A} (stream : option Stream)
    (k : Stream → Run machine A) : Run machine A :=
  match stream with
  | None => raise nil_dereference
  | Some s => k s
  end.

Definition Close (s : Stream) : Run world unit :=
  call (ev_Close s) (stream_Close col s).

(** [defer stream.Close()]: the method value is evaluated by the [defer]
    statement, the call is made when [body] is left. *)
Definition defer_Close {A} (stream : option Stream)
    (body : Run machine A) : Run machine A :=
  with_stream stream (λ s, defer (lift (Close s)) body).

(** [Read] hands out at most as many bytes as the buffer has room for. *)
Definition Read (s : Stream) (room : nat) : Run world (list byte * option error) :=
  '(got, err) ← call (ev_Read s room) (stream_Read col s room);
  mret (take room got, err).

Definition Write (s : Stream) (data : list byte) : Run world (nat * option error) :=
  '(n, err) ← call (ev_Write s data) (stream_Write col s data);
  mret (n `min` length data, err).

(** ** [protocolHandler] *)

Definition protocolHandler (stream : option Stream) : Run machine unit :=
  defer_Close stream (
    p ← get_node;
    match state p with
    | None => lift (logger_Error "nil state")
    | Some st =>
    match Peers st with
    | None => lift (logger_Error "nil peers")
    | Some prs =>
    match stream with
    | None => lift (logger_Error "[p2p] got nil stream")
    | Some s =>
    let multiAddr := RemoteMultiaddr s in
    let '(pinfo, err) := InfoFromP2pAddr col multiAddr in
    match err with
    | Some _ => lift (logger_Error "[p2p] err getting info from multiaddr %v")
    | None =>
    match pinfo with
    | None => lift (logger_Error "nil pinfo")
    | Some pinfov =>
    '(pr, err) ← lift (call (ev_Peers_Add pinfov) (Peers_Add col prs pinfov));
    match err with
    | Some _ => lift (logger_Error "[p2p] err adding peer")
    | None =>
    match pr ≫= kp_Peer with
    | None => lift (logger_Error "[p2p] known peer is null")
    | Some peer =>
    '(ok, err) ← lift (call (ev_IsWritable peer) (IsWritable col peer));
    match err with
    | Some _ => lift (logger_Error "[p2p] err checking if peer is writable")
    | None =>
      if (ok : bool) then mret ()
      else lift (emit (ev_go_dialPeers (Some peer)))   (* go p.dialPeers(pr.Peer) *)
    end end end end end end end end).

(** ** [dialPeer] and [dialPeers] *)

Definition dialPeer (pr : option InterfacePeer) : Run machine (option error) :=
  match pr with
  | None => mret (Some (errors_New "cannot dial nil peer"))
  | Some peer =>
    started ← IsStarted;
    if negb (started : bool) then mret (Some (errors_New "p2p host not started"))
    else
      p ← get_node;
      match state p ≫= Host with
      | None => raise nil_dereference
      | Some h =>
        conns ← lift (observe (ConnsToPeer col h (Cfg_Peer_ID peer)));
        match conns with
        | [] =>
          lift (logger_Info "[p2p] dialing peer with id %s");;
          '(c, err) ← lift (call (ev_DialPeer h (Cfg_Peer_ID peer))
                                 (DialPeer col h (Cfg_Peer_ID peer)));
          match err with
          | Some e => mret (Some e)
          | None =>
            lift (call (ev_AddConnection peer c) (AddConnection col peer c true))
          end
        | c :: _ =>
          lift (call (ev_AddConnection peer (Some c))
                     (AddConnection col peer (Some c) true))
        end
      end
  end.

Definition set_dialQueue (p : P2P) (q : gmap string (option QueuedPeer)) : P2P :=
  {| state := state p; cfg := cfg p; ctx := ctx p; ch := ch p; sync := sync p;
     cancel := cancel p; dialQueue := q |}.

(** [time.Now()] *)
Definition clock : Run machine Z := lift (consult (time_Now col)).

(** The [select]: [true] when the context is done, [false] when the timer
    fires. *)
Definition select (c : Context) (d : Z) : Run machine bool :=
  lift (consult (select_Done col c d)).

(** [*p.dialQueue[k]]: a key that is absent reads as a nil pointer. *)
Definition queued (k : string) : Run machine QueuedPeer :=
  p ← get_node;
  match dialQueue p !! k with
  | Some (Some q) => mret q
  | Some None | None => raise nil_dereference
  end.

(** Where a goroutine of [dialPeers] stands: the statement it executes
    next, with its local variables ([pr], [now], [k] and the keys that
    [range] has still to hand out). *)
Inductive dialing : Type :=
| at_IsStarted (pr : option InterfacePeer)   (* if !p.IsStarted() *)
| at_lookup (pr : option InterfacePeer)      (* if _, ok := p.dialQueue[pr.GetID()]; !ok *)
| at_insert (peer : InterfacePeer)           (* p.dialQueue[pr.GetID()] = &QueuedPeer{...} *)
| at_select                                  (* select *)
| at_now                                     (* now = time.Now() *)
| at_range (now : Z)                         (* for k = range p.dialQueue *)
| at_entry (now : Z) (ks : list string)      (* the next k, and the first if *)
| at_IsActive (now : Z) (k : string) (ks : list string)
| at_backoff (now : Z) (k : string) (ks : list string)
| at_dialPeer (now : Z) (k : string) (ks : list string)
| returned.

(** One statement of [dialPeers]. The keys of a [range] are those the map
    has when the loop begins: an entry created while the loop runs is
    skipped, which Go allows. [dialPeer] does not touch the queue and is one
    step. *)
Definition dialPeers_step (g : dialing) : Run machine dialing :=
  match g with
  | at_IsStarted pr =>
      started ← IsStarted;
      if negb (started : bool)
      then lift (logger_Error "p2p host not started");; mret returned
      else mret (at_lookup pr)
  | at_lookup None => mret at_select
  | at_lookup (Some peer) =>
      p ← get_node;
      match dialQueue p !! GetID peer with
      | Some _ => mret at_select
      | None => mret (at_insert peer)
      end
  | at_insert peer =>
      now ← clock;
      p ← get_node;
      set_node (set_dialQueue p
        (<[GetID peer := Some {| Peer := Some peer; NextDial := now |}]>
           (dialQueue p)));;
      mret at_select
  | at_select =>
      p ← get_node;
      done ← select (ctx p) (DialInterval (Defaults col));
      if (done : bool)
      then lift (logger_Info "[p2p] context canceled. Stopping dialPeers.");;
           mret returned
      else mret at_now
  | at_now =>
      now ← clock;
      mret (at_range now)
  | at_range now =>
      p ← get_node;
      ks ← lift (observe (range_order col (map_to_list (dialQueue p)).*1));
      mret (at_entry now ks)
  | at_entry now [] => mret at_select
  | at_entry now (k :: ks) =>
      p ← get_node;
      match dialQueue p !! k with
      | None | Some None => mret (at_entry now ks)
      | Some (Some q) =>
        if (now <? NextDial q)%Z then mret (at_entry now ks)  (* NextDial.After(now) *)
        else
          match Peer q with
          | None => mret (at_entry now ks)
          | Some _ => mret (at_IsActive now k ks)
          end
      end
  | at_IsActive now k ks =>
      q ← queued k;
      match Peer q with
      | None => raise nil_dereference
      | Some peer =>
        '(active, err) ← lift (call (ev_IsActive peer) (IsActive col peer));
        if bool_decide (is_Some (err : option error)) || (active : bool)
        then mret (at_entry now ks)
        else mret (at_backoff now k ks)
      end
  | at_backoff now k ks =>
      q ← queued k;
      p ← get_node;
      set_node (set_dialQueue p
        (<[k := Some {| Peer := Peer q;
                        NextDial := (NextDial q + DialBackoff (Defaults col))%Z |}]>
           (dialQueue p)));;
      mret (at_dialPeer now k ks)
  | at_dialPeer now k ks =>
      q ← queued k;
      err ← dialPeer (Peer q);
      match err with
      | Some _ =>
        q' ← queued k;
        match Peer q' with
        | None => raise nil_dereference              (* Peer.GetID() *)
        | Some _ => lift (logger_Error "[p2p] err dialing peer id %s")
        end
      | None => mret ()
      end;;
      mret (at_entry now ks)
  | returned => mret returned
  end.

(** The goroutines of [dialPeers] on one node: the [i]-th takes a turn (a
    goroutine that has returned, or an [i] that names none, does nothing).
    A panic in one of them ends the program. *)
Definition turn (i : nat) (gs : list dialing) : Run machine (list dialing) :=
  match gs !! i with
  | None => mret gs
  | Some g => g' ← dialPeers_step g; mret (<[i := g']> gs)
  end.

(** The turns of a schedule, one after the other. *)
Fixpoint interleaving (schedule : list nat) (gs : list dialing)
  : Run machine (list dialing) :=
  match schedule with
  | [] => mret gs
  | i :: rest => gs' ← turn i gs; interleaving rest gs'
  end.

(** ** Buffered I/O ([bufio] over a stream) *)

Definition defaultBufSize : nat := 4096.
Definition maxConsecutiveEmptyReads : nat := 100.

Record bufio_Writer := mkWriter
  { w_err : option error; w_buf : list byte; w_wr : Stream }.
Record bufio_Reader := mkReader
  { r_buf : list byte; r_err : option error; r_rd : Stream }.

Definition bufio_NewWriter (s : Stream) : bufio_Writer := mkWriter None [] s.
Definition bufio_NewReader (s : Stream) : bufio_Reader := mkReader [] None s.

Definition Available (b : bufio_Writer) : nat := defaultBufSize - length (w_buf b).
Definition Buffered (b : bufio_Writer) : nat := length (w_buf b).

Definition Writer_Flush (b : bufio_Writer) : Run world (option error * bufio_Writer) :=
  match w_err b with
  | Some e => mret (Some e, b)
  | None =>
    match w_buf b with
    | [] => mret (None, b)
    | _ =>
      '(n, err) ← Write (w_wr b) (w_buf b);
      let err := if (n <? length (w_buf b))%nat && negb (bool_decide (is_Some err))
                 then Some io_ErrShortWrite else err in
      match err with
      | Some e => mret (Some e, mkWriter (Some e) (drop n (w_buf b)) (w_wr b))
      | None => mret (None, mkWriter None [] (w_wr b))
      end
    end
  end.

Fixpoint Writer_Write_loop (fuel : nat) (b : bufio_Writer) (p : list byte)
    (nn : nat) : Run world ((nat * option error) * bufio_Writer) :=
  if (Available b <? length p)%nat && negb (bool_decide (is_Some (w_err b)))
  then
    match fuel with
    | O => diverge
    | S fuel' =>
      if (Buffered b =? 0)%nat
      then
        '(n, err) ← Write (w_wr b) p;
        Writer_Write_loop fuel' (mkWriter err (w_buf b) (w_wr b)) (drop n p) (nn + n)
      else
        let n := Available b in
        '(_, b') ← Writer_Flush (mkWriter (w_err b) (w_buf b ++ take n p) (w_wr b));
        Writer_Write_loop fuel' b' (drop n p) (nn + n)
    end
  else
    match w_err b with
    | Some e => mret ((nn, Some e), b)
    | None => mret ((nn + length p, None), mkWriter None (w_buf b ++ p) (w_wr b))
    end.

Definition Writer_Write (b : bufio_Writer) (p : list byte)
  : Run world ((nat * option error) * bufio_Writer) :=
  Writer_Write_loop (2 * length p + 2) b p 0.

(** The inner loop of [ReadFrom]: read until there is data or an error. *)
Fixpoint read_some (tries : nat) (s : Stream) (room : nat)
  : Run world (option (list byte * option error)) :=
  match tries with
  | O => mret None
  | S tries' =>
    '(got, err) ← Read s room;
    if negb (length got =? 0)%nat || bool_decide (is_Some err)
    then mret (Some (got, err))
    else read_some tries' s room
  end.

(** [(b *Writer).ReadFrom(r)] for a stream, which is no [io.ReaderFrom]. *)
Fixpoint Writer_ReadFrom_loop (fuel : nat) (b : bufio_Writer) (r : Stream)
    (n : nat) : Run world ((nat * option error) * bufio_Writer) :=
  match fuel with
  | O => diverge
  | S fuel' =>
    '(err1, b) ← (if (Available b =? 0)%nat then Writer_Flush b else mret (None, b));
    match err1 with
    | Some e => mret ((n, Some e), b)
    | None =>
      res ← read_some maxConsecutiveEmptyReads r (Available b);
      match res with
      | None => mret ((n, Some io_ErrNoProgress), b)
      | Some (got, err) =>
        let b := mkWriter (w_err b) (w_buf b ++ got) (w_wr b) in
        let n := n + length got in
        match err with
        | None => Writer_ReadFrom_loop fuel' b r n
        | Some e =>
          if is_EOF e
          then
            if (Available b =? 0)%nat
            then '(err, b) ← Writer_Flush b; mret ((n, err), b)
            else mret ((n, None), b)
          else mret ((n, Some e), b)
        end
      end
    end
  end.

Definition Writer_ReadFrom (fuel : nat) (b : bufio_Writer) (r : Stream)
  : Run world ((nat * option error) * bufio_Writer) :=
  match w_err b with
  | Some e => mret ((0, Some e), b)
  | None => Writer_ReadFrom_loop fuel b r 0
  end.

(** [io.Copy(w, r)] goes to [r.WriteTo(w)]: what the reader has buffered is
    written to [w], then [w.ReadFrom] reads the stream. *)
Definition io_Copy (fuel : nat) (w : bufio_Writer) (r : bufio_Reader)
  : Run world ((nat * option error) * bufio_Writer) :=
  '((n, err), w) ← Writer_Write w (r_buf r);
  match err with
  | Some e => mret ((n, Some e), w)
  | None =>
    '((m, err), w) ← Writer_ReadFrom fuel w (r_rd r);
    mret ((n + m, err), w)
  end.

(** [fill]: read new data into the buffer, trying a limited number of
    times. *)
Fixpoint Reader_fill (tries : nat) (b : bufio_Reader) : Run world bufio_Reader :=
  match tries with
  | O => mret (mkReader (r_buf b) (Some io_ErrNoProgress) (r_rd b))
  | S tries' =>
    '(got, err) ← Read (r_rd b) (defaultBufSize - length (r_buf b));
    let b := mkReader (r_buf b ++ got) (r_err b) (r_rd b) in
    match err with
    | Some e => mret (mkReader (r_buf b) (Some e) (r_rd b))
    | None =>
      if negb (length got =? 0)%nat then mret b else Reader_fill tries' b
    end
  end.

Fixpoint Reader_ReadByte_loop (fuel : nat) (b : bufio_Reader)
  : Run world ((byte * option error) * bufio_Reader) :=
  match r_buf b with
  | c :: rest => mret ((c, None), mkReader rest (r_err b) (r_rd b))
  | [] =>
    match r_err b with
    | Some e => mret ((x00, Some e), mkReader [] None (r_rd b))
    | None =>
      match fuel with
      | O => diverge
      | S fuel' =>
        b ← Reader_fill maxConsecutiveEmptyReads b;
        Reader_ReadByte_loop fuel' b
      end
    end
  end.

Definition Reader_ReadByte (b : bufio_Reader)
  : Run world ((byte * option error) * bufio_Reader) :=
  Reader_ReadByte_loop 1 b.

(** [bytes.Equal] *)
Fixpoint bytes_Equal (a b : list byte) : bool :=
  match a, b with
  | [], [] => true
  | x :: a', y :: b' => Byte.eqb x y && bytes_Equal a' b'
  | _, _ => false
  end.

(** ** [pingHandler] *)

Definition pingHandler (stream : option Stream) (fuel : nat) : Run machine unit :=
  defer_Close stream (
    p ← get_node;
    match state p with
    | None => lift (logger_Error "nil state")
    | Some st =>
    match Peers st with
    | None => lift (logger_Error "nil peers")
    | Some _ =>
    match stream with
    | None => lift (logger_Error "[p2p] got nil stream")
    | Some s =>
      let r := bufio_NewReader s in
      let w := bufio_NewWriter s in
      '((_, err), _) ← lift (io_Copy fuel w r);
      match (err : option error) with
      | Some _ => lift (logger_Error "[p2p] err handling ping")
      | None => mret ()
      end
    end end end).

(** ** [sendPingToPeer] *)

(** The loop that collects the pong into [b2]. *)
Fixpoint read_pong (fuel : nat) (r : bufio_Reader) (b2 : list byte) (nb : nat)
  : Run world (error + list byte) :=
  match fuel with
  | O => diverge
  | S fuel' =>
    '((c, err), r) ← Reader_ReadByte r;
    match err with
    | None =>
      (* b2[nb] = c *)
      if (nb <? length b2)%nat
      then read_pong fuel' r (<[nb := c]> b2) (S nb)
      else raise (index_out_of_range nb (length b2))
    | Some e =>
      if is_EOF e then mret (inr b2)
      else if (32 <=? nb)%nat then mret (inr b2)
      else mret (inl e)
    end
  end.

Definition sendPingToPeer (pr : option InterfacePeer) (fuel : nat)
  : Run machine (option error) :=
  match pr with
  | None => mret (Some (errors_New "cannot ping nil peer"))
  | Some peer =>
  p ← get_node;
  match state p with
  | None => mret (Some (errors_New "nil state"))
  | Some st =>
  match Host st with
  | None => mret (Some (errors_New "nil host"))
  | Some h =>
  '(stream, err) ← lift (call (ev_NewStream h (Cfg_Peer_ID peer) (ProtocolPing (Defaults col)))
                              (NewStream col h (Cfg_Peer_ID peer) (ProtocolPing (Defaults col))));
  match err with
  | Some e => mret (Some e)
  | None =>
  defer_Close stream (
  with_stream stream (λ s,
    now ← clock;
    let deadline := (now + PingTimeout (Defaults col))%Z in
    err ← lift (call (ev_SetDeadline s deadline) (stream_SetDeadline col s deadline));
    match err with
    | Some e => mret (Some e)
    | None =>
    (* b := make([]byte, 32); rand.Read(b) *)
    '(got, err) ← lift (call ev_rand_Read (rand_Read col 32));
    let b := resize 32 x00 got in
    match err with
    | Some e => mret (Some e)
    | None =>
    let r := bufio_NewReader s in
    let w := bufio_NewWriter s in
    '((_, err), w) ← lift (Writer_Write w b);
    match (err : option error) with
    | Some e => mret (Some e)
    | None =>
    '(err, _) ← lift (Writer_Flush w);
    match err with
    | Some e => mret (Some e)
    | None =>
    (* var b2 []byte; var nb int *)
    res ← lift (read_pong fuel r [] 0);
    match res with
    | inl e => mret (Some e)
    | inr b2 =>
      if negb (bytes_Equal b b2)
      then lift (logger_Error "[p2p] ping err from %v");;
           mret (Some (errors_New "pong does not match ping"))
      else mret None
    end end end end end))
  end end end end.

(** ** [handlePeerMessage] *)

Definition handlePeerMessage (msg : option OnMessage) : Run machine (option error) :=
  match msg with
  | None => mret (Some (errors_New "nil msg"))
  | Some envelope =>
  match om_Message envelope with
  | None => mret (Some (errors_New "nil message"))
  | Some message =>
  let '(h, err) := FromEnum col (Kind message) in
  match err with
  | Some e => mret (Some e)
  | None =>
  match h with
  | None => mret (Some (errors_New "nil handler"))
  | Some hv =>
    if negb (Type_ hv =? Kind message)%nat
    then mret (Some (errors_New "wrong handler"))
    else
      p ← get_node;
      lift (emit (ev_Func (Type_ hv) p (om_Peer envelope) message));;
      Func hv p (om_Peer envelope) message
  end end end end.

End Model.

Arguments world : clear implicits.
Arguments machine : clear implicits.
Arguments Handler : clear implicits.
Arguments Collaborators : clear implicits.

(** ** The rest of the package *)

(** The further methods of the node call services that the methods above
    do not: the peer store's count and list, the syncer, the address book
    of the host, the registration of stream handlers. Their calls are kept
    in a journal of their own, [st_calls], beside the trace. *)

Inductive stream_handler := the_protocolHandler | the_pingHandler.
Inductive addr_ttl := PermanentAddrTTL.
Inductive rpc_service := SystemService | StateService | ChainService | AuthorService.

Inductive service_call : Type :=
| sc_Count (prs : InterfacePeers)
| sc_KnownPeers (prs : InterfacePeers)
| sc_RequestBlocks (s : InterfaceSync) (pr : option InterfacePeer)
| sc_Peerstore_Peers (h : host_Host)
| sc_AddAddr (h : host_Host) (id : PeerID) (addr : Multiaddr) (ttl : addr_ttl)
| sc_SetStreamHandler (h : host_Host) (protocol : string) (handler : stream_handler)
| sc_Register (service : rpc_service).


Section Services.

Context {W : Type}.

Record station := mkStation
  { st_node : P2P; st_ext : W; st_trace : list event;
    st_calls : list service_call }.

Record Services := mkServices
  { Peers_Count : InterfacePeers → W → (nat * option error) * W;
    Peers_KnownPeers :
      InterfacePeers → W → (list (option KnownPeer) * option error) * W;
    sync_RequestBlocks :
      InterfaceSync → option InterfacePeer → W → option error * W;
    Peerstore_Peers : host_Host → W → list PeerID * W;
    Peerstore_AddAddr : host_Host → PeerID → Multiaddr → addr_ttl → W → unit * W;
    Host_SetStreamHandler : host_Host → string → stream_handler → W → unit * W;
    Conn_RemotePeer : Conn → PeerID;
    Conn_RemoteMultiaddr : Conn → Multiaddr;
    rpc_Register : rpc_service → W → option error * W }.

Variable col : Collaborators W.
Variable svc : Services.

(** A method of the node above, run at the station. *)
Definition on_machine {A} (c : Run (machine W) A) : Run station A := λ s,
  let r := c (mkMachine (st_node s) (mkWorld (st_ext s) (st_trace s))) in
  (r.1, mkStation (node r.2) (ext (env r.2)) (trace (env r.2)) (st_calls s)).

Definition on_world {A} (c : Run (world W) A) : Run station A :=
  on_machine (lift c).

(** A call to a service: entered in the journal, answered by [f]. *)
Definition service {A} (c : service_call) (f : W → A * W) : Run station A := λ s,
  (Returned (f (st_ext s)).1,
   mkStation (st_node s) (f (st_ext s)).2 (st_trace s) (st_calls s ++ [c])).

Definition the_node : Run station P2P := λ s, (Returned (st_node s), s).

(** A method of the interface value [conn]. *)
Definition with_conn {A} (cn : option Conn) (k : Conn → Run station A)
  : Run station A :=
  match cn with
  | None => raise nil_dereference
  | Some c => k c
  end.

(** *** [pingPeer] *)

(** [reads] bounds the read loop of each ping, [fuel] the ticks. *)
Fixpoint pingPeer (pr : option InterfacePeer) (reads fuel : nat)
  : Run (machine W) (option error) :=
  match fuel with
  | O => diverge
  | S fuel' =>
    p ← get_node;
    done ← select col (ctx p) (PingInterval (Defaults col));
    if (done : bool)
    then lift (logger_Info "[p2p] context canceled. Stopping pingPeer.");;
         mret None
    else
      err ← sendPingToPeer col pr reads;
      match err with
      | Some _ =>
        (* the log reads pr.Cfg().Peer.ID *)
        match pr with
        | None => raise nil_dereference
        | Some _ => lift (logger_Error "[p2p] err sending ping to peer with ID %v")
        end
      | None => mret ()
      end;;
      pingPeer pr reads fuel'
  end.

(** *** [GetNumPeers] *)

Definition GetNumPeers : Run station (nat * option error) :=
  p ← the_node;
  match state p with
  | None => mret (0, Some ErrUninitializedService)
  | Some st =>
    match Peers st with
    | None => mret (0, Some ErrNoPeersService)
    | Some prs => service (sc_Count prs) (Peers_Count svc prs)
    end
  end.

(** *** [onConn] and [addAddr] *)

(** The scan of the peers of the address book: [true] when the remote peer
    is found, which is then logged. *)
Fixpoint addAddr_scan (cn : option Conn) (known : list PeerID) : Run station bool :=
  match known with
  | [] => mret false
  | peer :: rest =>
    with_conn cn (λ c,
      if bool_decide (Conn_RemotePeer svc c = peer)
      then on_world (logger_Warn "[p2p] already have peer in our peerstore");;
           mret true
      else addAddr_scan cn rest)
  end.

Definition addAddr (cn : option Conn) : Run station unit :=
  p ← the_node;
  match state p ≫= Host with
  | None =>
    with_conn cn (λ _,
      on_world (logger_Warn "[p2p] no state or host, cannot add peer %s"))
  | Some h =>
    known ← service (sc_Peerstore_Peers h) (Peerstore_Peers svc h);
    found ← addAddr_scan cn known;
    if (found : bool) then mret ()
    else
      with_conn cn (λ c,
        let id := Conn_RemotePeer svc c in
        let addr := Conn_RemoteMultiaddr svc c in
        service (sc_AddAddr h id addr PermanentAddrTTL)
                (Peerstore_AddAddr svc h id addr PermanentAddrTTL);;
        on_world (logger_Info "[p2p] added %s to our peerstore");;
        '(_, err) ← on_world (call (ev_DialPeer h id) (DialPeer col h id));
        match (err : option error) with
        | Some _ => on_world (logger_Warn "[p2p] err connecting to a peer")
        | None => on_world (logger_Info "[p2p] connected to %s")
        end)
  end.

Definition onConn (cn : option Conn) : Run station unit :=
  with_conn cn (λ _, on_world (logger_Info "[p2p] peer did connect"));;
  addAddr cn.

(** *** [handleProtocol] and [handlePing] *)

Definition set_handler (protocol : string) (handler : stream_handler)
  : Run station (option error) :=
  p ← the_node;
  match state p with
  | None => mret (Some (errors_New "nil state"))
  | Some st =>
    match Host st with
    | None => mret (Some (errors_New "nil host"))
    | Some h =>
      service (sc_SetStreamHandler h protocol handler)
              (Host_SetStreamHandler svc h protocol handler);;
      mret None
    end
  end.

Definition handleProtocol : Run station (option error) :=
  set_handler (ProtocolDot (Defaults col)) the_protocolHandler.

Definition handlePing : Run station (option error) :=
  set_handler (ProtocolPing (Defaults col)) the_pingHandler.

(** *** [requestAny] *)

(** [for idx = range knownPeers] *)
Fixpoint request_each (sy : option InterfaceSync) (kps : list (option KnownPeer))
  : Run station unit :=
  match kps with
  | [] => mret ()
  | kp :: rest =>
    match sy, kp with
    | Some s, Some k =>
      err ← service (sc_RequestBlocks s (kp_Peer k))
                    (sync_RequestBlocks svc s (kp_Peer k));
      match err with
      | Some _ => on_world (logger_Error "[p2p] err requesting block from peer")
      | None => mret ()
      end;;
      request_each sy rest
    | _, _ => raise nil_dereference
    end
  end.

(** One tick of the loop. *)
Definition request_tick : Run station unit :=
  p ← the_node;
  match state p ≫= Peers with
  | None => raise nil_dereference
  | Some prs =>
    '(kps, err) ← service (sc_KnownPeers prs) (Peers_KnownPeers svc prs);
    match (err : option error) with
    | Some _ => on_world (logger_Error "[p2p] err requesting known peers")
    | None => request_each (sync p) kps
    end
  end.

Fixpoint requestAny (fuel : nat) : Run station unit :=
  match fuel with
  | O => diverge
  | S fuel' =>
    p ← the_node;
    done ← on_machine (select col (ctx p) (RequestInterval (Defaults col)));
    if (done : bool)
    then on_world (logger_Info "[p2p] context canceled. Stopping requestAny.")
    else request_tick;; requestAny fuel'
  end.

(** *** [rpc.NewServer] *)



End Services.

Arguments station : clear implicits.
Arguments Services : clear implicits.

(** ** A concrete world: one remote peer on the wire *)

(** [inbox] holds the bytes the remote has sent and the node has not read;
    when [echoing], the remote sends back whatever it is sent and then
    closes its side; [wall] is the clock. *)
Record wire := mkWire { inbox : list byte; echoing : bool; wall : Z }.

Definition wire_Read (room : nat) (w : wire) : (list byte * option error) * wire :=
  match inbox w with
  | [] => (([], Some io_EOF), w)
  | _ => ((take room (inbox w), None),
          mkWire (drop room (inbox w)) (echoing w) (wall w))
  end.

Definition wire_Write (data : list byte) (w : wire) : (nat * option error) * wire :=
  ((length data, None),
   if echoing w then mkWire (inbox w ++ data) (echoing w) (wall w) else w).

(** The single registered handler, of kind 1: it answers nil. *)
Definition status_handler : Handler wire :=
  {| Type_ := 1; Func := λ _ _ _, mret None |}.

Definition wire_nonce : list byte :=
  [x01; x02; x03; x04; x05; x06; x07; x08; x09; x0a; x0b; x0c; x0d; x0e; x0f; x10;
   x11; x12; x13; x14; x15; x16; x17; x18; x19; x1a; x1b; x1c; x1d; x1e; x1f; x20].

Definition wire_stream : Stream := mkStream 1 "/ip4/10.0.0.2/tcp/39999".
Definition wire_host : host_Host := mkHost "QmLocal".
Definition wire_peer : InterfacePeer := mkPeer "QmRemote" "QmRemote".

Definition wire_col : Collaborators wire :=
  {| Defaults := {| DialBackoff := 300000; DialInterval := 15000;
                    PingInterval := 30000; PingTimeout := 5000;
                    RequestInterval := 15000;
                    ProtocolDot := "/dot/0.0.0"; ProtocolPing := "/ipfs/ping/1.0.0" |};
     peers_New := λ _ w, ((Some (peers 0), None), w);
     sync_New := λ _ _ _ w, ((Some (syncer 0), None), w);
     lib := λ _ w, (None, w);
     built_Host := λ _, wire_host;
     Addrs := λ _ _, ["/ip4/10.0.0.1/tcp/39999"];
     run_cancel := λ _ w, ((), w);
     time_Now := λ w, (wall w, mkWire (inbox w) (echoing w) (wall w + 1));
     select_Done := λ _ d w, ((60000 <=? wall w + d)%Z,
                              mkWire (inbox w) (echoing w) (wall w + d));
     range_order := λ ks _, ks;
     InfoFromP2pAddr := λ a, (Some (mkPeerInfo "QmRemote" [a]), None);
     Peers_Add := λ _ _ w, ((Some (mkKnownPeer (Some wire_peer)), None), w);
     IsWritable := λ _ w, ((false, None), w);
     IsActive := λ _ w, ((false, None), w);
     ConnsToPeer := λ _ _ _, [];
     DialPeer := λ _ _ w, ((None, Some (net_error 111)), w);
     AddConnection := λ _ _ _ w, (None, w);
     NewStream := λ _ _ _ w, ((Some wire_stream, None), w);
     stream_SetDeadline := λ _ _ w, (None, w);
     stream_Read := λ _, wire_Read;
     stream_Write := λ _, wire_Write;
     stream_Close := λ _ w, ((), w);
     rand_Read := λ _ w, ((wire_nonce, None), w);
     FromEnum := λ k, if (k =? 1)%nat then (Some status_handler, None)
                      else (None, Some (errors_New "unknown message")) |}.

Definition wire_cfg : ConfigClient :=
  mkConfigClient (Some (mkConfigP2P "/ip4/10.0.0.1/tcp/39999" (key 1) (key 2) (context 0))).

(** A node as [New] builds it. *)
Definition fresh_node : P2P :=
  {| state := Some {| Chain := Some (chains 0); Config := Some wire_cfg;
                      SyncState := Some mkSyncState; Peers := Some (peers 0);
                      Host := None |};
     cfg := Some wire_cfg; ctx := context 0; ch := chan 0;
     sync := Some (syncer 0); cancel := Some (cancel_func 0);
     dialQueue := ∅ |}.

(** The same node after [Start]. *)
Definition started_node : P2P :=
  match state fresh_node with
  | Some st => set_Host fresh_node st wire_host
  | None => fresh_node
  end.

Definition on_wire (p : P2P) (w : wire) : machine wire :=
  mkMachine p (mkWorld w []).

(** The remote echoes. *)
Definition echo_wire : wire := mkWire [] true 1000.
(** The remote has sent 32 bytes and closed its side. *)
Definition sent_wire : wire := mkWire wire_nonce false 1000.

(** A node whose configuration lost its P2P part after [New]. *)
Definition node_without_P2P_config : P2P :=
  {| state := state fresh_node; cfg := Some (mkConfigClient None);
     ctx := ctx fresh_node; ch := ch fresh_node; sync := sync fresh_node;
     cancel := cancel fresh_node; dialQueue := dialQueue fresh_node |}.

(** A status message from the remote peer. *)
Definition status_message : OnMessage :=
  mkOnMessage (Some wire_peer) (Some (mkMessage 1 [])).

(** What a run leaves to be seen: the outcome, the trace, the world. *)
Definition seen {A} (r : outcome A * machine wire)
  : outcome A * list event * wire :=
  (r.1, trace (env r.2), ext (env r.2)).

(** ** A second world: a host bound to the context that [Stop] cancels *)

(** All there is to this world is whether the context on which [Start]
    built the swarm is still live. The cancellation function ends it, and
    the host listens while it lasts; no peer answers. *)
Definition bound_col : Collaborators bool :=
  {| Defaults := Defaults wire_col;
     peers_New := λ _ live, ((Some (peers 0), None), live);
     sync_New := λ _ _ _ live, ((Some (syncer 0), None), live);
     lib := λ _ live, (None, live);
     built_Host := λ _, wire_host;
     Addrs := λ _ (live : bool), if live then ["/ip4/10.0.0.1/tcp/39999"] else [];
     run_cancel := λ _ _, ((), false);
     time_Now := λ live, (1000%Z, live);
     select_Done := λ _ _ (live : bool), (negb live, live);
     range_order := λ ks _, ks;
     InfoFromP2pAddr := λ _, (None, Some (net_error 22));
     Peers_Add := λ _ _ live, ((None, Some (net_error 113)), live);
     IsWritable := λ _ live, ((false, Some (net_error 113)), live);
     IsActive := λ _ live, ((false, Some (net_error 113)), live);
     ConnsToPeer := λ _ _ _, [];
     DialPeer := λ _ _ live, ((None, Some (net_error 113)), live);
     AddConnection := λ _ _ _ live, (Some (net_error 113), live);
     NewStream := λ _ _ _ live, ((None, Some (net_error 113)), live);
     stream_SetDeadline := λ _ _ live, (Some (net_error 113), live);
     stream_Read := λ _ _ live, (([], Some io_EOF), live);
     stream_Write := λ _ _ live, ((0, Some (net_error 113)), live);
     stream_Close := λ _ live, ((), live);
     rand_Read := λ _ live, (([], Some (net_error 5)), live);
     FromEnum := λ _, (None, Some (errors_New "unknown message")) |}.

(** The started node, while the context is live. *)
Definition bound_machine : machine bool := mkMachine started_node (mkWorld true []).

(** Two calls of [dialPeers] for the remote peer, as [protocolHandler]
    starts them for two streams of a peer that is not writable. *)
Definition two_calls : list dialing :=
  [at_IsStarted (Some wire_peer); at_IsStarted (Some wire_peer)].

(** The services on the wire: the address book knows the local peer only,
    the peer store lists the remote peer, whose blocks cannot be had. *)
Definition wire_svc : Services wire :=
  {| Peers_Count := λ _ w, ((1, None), w);
     Peers_KnownPeers := λ _ w,
       (([Some (mkKnownPeer (Some wire_peer)); Some (mkKnownPeer None)], None), w);
     sync_RequestBlocks := λ _ _ w, (Some (net_error 7), w);
     Peerstore_Peers := λ _ w, (["QmLocal"], w);
     Peerstore_AddAddr := λ _ _ _ _ w, ((), w);
     Host_SetStreamHandler := λ _ _ _ w, ((), w);
     Conn_RemotePeer := λ _, "QmRemote";
     Conn_RemoteMultiaddr := λ _, "/ip4/10.0.0.2/tcp/39999";
     rpc_Register := λ _ w, (None, w) |}.

Definition at_station (p : P2P) (w : wire) : station wire :=
  mkStation p w [] [].

(** The same services, with a peer store that cannot list its peers. *)
Definition deaf_svc : Services wire :=
  {| Peers_Count := Peers_Count wire_svc;
     Peers_KnownPeers := λ _ w, (([], Some (net_error 5)), w);
     sync_RequestBlocks := sync_RequestBlocks wire_svc;
     Peerstore_Peers := Peerstore_Peers wire_svc;
     Peerstore_AddAddr := Peerstore_AddAddr wire_svc;
     Host_SetStreamHandler := Host_SetStreamHandler wire_svc;
     Conn_RemotePeer := Conn_RemotePeer wire_svc;
     Conn_RemoteMultiaddr := Conn_RemoteMultiaddr wire_svc;
     rpc_Register := rpc_Register wire_svc |}.

(** The wire, with the listen address in use: [AddListenAddr] fails. *)
Definition busy_col : Collaborators wire :=
  {| Defaults := Defaults wire_col;
     peers_New := peers_New wire_col;
     sync_New := sync_New wire_col;
     lib := λ c w, (match c with
                    | AddListenAddr => Some (net_error 98)
                    | _ => None
                    end, w);
     built_Host := built_Host wire_col;
     Addrs := Addrs wire_col;
     run_cancel := run_cancel wire_col;
     time_Now := time_Now wire_col;
     select_Done := select_Done wire_col;
     range_order := range_order wire_col;
     InfoFromP2pAddr := InfoFromP2pAddr wire_col;
     Peers_Add := Peers_Add wire_col;
     IsWritable := IsWritable wire_col;
     IsActive := IsActive wire_col;
     ConnsToPeer := ConnsToPeer wire_col;
     DialPeer := DialPeer wire_col;
     AddConnection := AddConnection wire_col;
     NewStream := NewStream wire_col;
     stream_SetDeadline := stream_SetDeadline wire_col;
     stream_Read := stream_Read wire_col;
     stream_Write := stream_Write wire_col;
     stream_Close := stream_Close wire_col;
     rand_Read := rand_Read wire_col;
     FromEnum := FromEnum wire_col |}.


(** ** Vocabulary of the statements *)

Section Vocabulary.

Context {W : Type}.
Variable col : Collaborators W.

(** The machine after one more event. *)
Definition logged (m : machine W) (e : event) : machine W :=
  mkMachine (node m) (mkWorld (ext (env m)) (trace (env m) ++ [e])).

(** [msg] carries [message] from [peer], and the registry resolves the kind
    of [message] to [h], which declares that kind. *)
Definition resolves (msg : option OnMessage) (h : Handler W)
    (peer : option InterfacePeer) (message : Message) : Prop :=
  ∃ envelope,
    msg = Some envelope ∧ om_Peer envelope = peer ∧
    om_Message envelope = Some message ∧
    FromEnum col (Kind message) = (Some h, None) ∧
    Type_ h = Kind message.

(** The envelopes that no handler takes. *)
Inductive undispatchable : option OnMessage → Prop :=
| nil_envelope : undispatchable None
| nil_message peer : undispatchable (Some (mkOnMessage peer None))
| unregistered_kind peer message h e :
    FromEnum col (Kind message) = (h, Some e) →
    undispatchable (Some (mkOnMessage peer (Some message)))
| no_handler peer message :
    FromEnum col (Kind message) = (None, None) →
    undispatchable (Some (mkOnMessage peer (Some message)))
| wrong_handler peer message h :
    FromEnum col (Kind message) = (Some h, None) →
    Type_ h ≠ Kind message →
    undispatchable (Some (mkOnMessage peer (Some message))).

(** [q'] is the entry [q] after some number of backoffs of length [b]. *)
Definition backed_off (b : Z) (q q' : QueuedPeer) : Prop :=
  Peer q' = Peer q ∧ ∃ n : nat, NextDial q' = (NextDial q + Z.of_nat n * b)%Z.

(** Every key of [dq] is a key of [dq']: a nil entry is still nil, and an
    entry is the same entry after some number of backoffs. *)
Definition advanced (b : Z) (dq dq' : gmap string (option QueuedPeer)) : Prop :=
  ∀ k e, dq !! k = Some e →
         ∃ e', dq' !! k = Some e' ∧ option_Forall2 (backed_off b) e e'.

(** The peer that a goroutine of [dialPeers] may still insert. *)
Definition pending (g : dialing) : option InterfacePeer :=
  match g with
  | at_IsStarted pr | at_lookup pr => pr
  | at_insert peer => Some peer
  | _ => None
  end.

(** The identities that the goroutines [gs] may still insert. *)
Definition identities (gs : list dialing) : gset string :=
  list_to_set (omap (λ g, GetID <$> pending g) gs).

(** No two of the goroutines [gs] have the same identity still to insert:
    the calls for one peer do not overlap before their insertion. *)
Definition apart (gs : list dialing) : Prop :=
  ∀ i j a b, gs !! i ≫= pending = Some a → gs !! j ≫= pending = Some b →
             GetID a = GetID b → i = j.

(** What one statement of [dialPeers] does to the queue: nothing, the
    insertion of the peer of the call, or one backoff (of length [b]) of an
    entry. *)
Inductive effect (b : Z) (g : dialing)
    (dq dq' : gmap string (option QueuedPeer)) : Prop :=
| effect_none : dq' = dq → effect b g dq dq'
| effect_insert peer now :
    g = at_insert peer →
    dq' = <[GetID peer := Some {| Peer := Some peer; NextDial := now |}]> dq →
    effect b g dq dq'
| effect_backoff k q :
    pending g = None →
    dq !! k = Some (Some q) →
    dq' = <[k := Some {| Peer := Peer q; NextDial := (NextDial q + b)%Z |}]> dq →
    effect b g dq dq'.

(** The key that a goroutine is about to insert is not in the queue. *)
Definition unqueued (gs : list dialing)
    (dq : gmap string (option QueuedPeer)) : Prop :=
  ∀ i peer, gs !! i = Some (at_insert peer) → dq !! GetID peer = None.

(** The keys of [dq] are keys of [dq'], which has no others but [ids]. *)
Definition grown_by (ids : gset string)
    (dq dq' : gmap string (option QueuedPeer)) : Prop :=
  dom dq ⊆ dom dq' ∧ dom dq' ⊆ dom dq ∪ ids.

(** The events with which [Stop] fires the cancellation function. *)
Definition cancellation (p : P2P) : list event :=
  match cancel p with
  | Some f => [ev_cancel f]
  | None => []
  end.

End Vocabulary.

(** ** Vocabulary of the further statements *)

(** However [c] ends from [s], the state it leaves is related to [s]. *)
Definition preserves {S A} (R : relation S) (c : Run S A) : Prop :=
  ∀ s, R s (c s).2.

(** The events that are not a write to a stream, and the writes of a
    payload that is [ok]. *)
Definition writes (ok : list byte → Prop) (e : event) : Prop :=
  match e with
  | ev_Write _ sent => ok sent
  | _ => True
  end.

Section Vocabulary_of_traces.

Context {W : Type}.

(** [w'] is [w] after more events, all of the sort [P]. *)
Definition emits (P : event → Prop) (w w' : world W) : Prop :=
  ∃ evs, trace w' = trace w ++ evs ∧ Forall P evs.

(** The same for a machine, whose node has not changed. *)
Definition emits_on (P : event → Prop) (m m' : machine W) : Prop :=
  node m' = node m ∧ emits P (env m) (env m').

(** The events of [m'] that [m] did not have. *)
Definition news (m m' : machine W) : list event :=
  drop (length (trace (env m))) (trace (env m')).

End Vocabulary_of_traces.

(** ** Vocabulary of the journal *)

Section Vocabulary_of_the_journal.

Context {W : Type}.

(** The calls and the events of [s'] that [s] did not have. *)
Definition new_calls (s s' : station W) : list service_call :=
  drop (length (st_calls s)) (st_calls s').
Definition new_events (s s' : station W) : list event :=
  drop (length (st_trace s)) (st_trace s').

End Vocabulary_of_the_journal.


(** ** Vocabulary of the goroutines of [dialPeers] *)

(** The key of the entry that a goroutine has passed the first test of the
    sweep with, and is still working on. *)
Definition in_hand (g : dialing) : option string :=
  match g with
  | at_IsActive _ k _ | at_backoff _ k _ | at_dialPeer _ k _ => Some k
  | _ => None
  end.

(** The key [k] has an entry in [dq], with a peer. *)
Definition dialable (dq : gmap string (option QueuedPeer)) (k : string) : Prop :=
  ∃ q peer, dq !! k = Some (Some q) ∧ Peer q = Some peer.

(** Every goroutine of [gs] that has an entry in hand finds it in [dq]. *)
Definition holding (gs : list dialing)
    (dq : gmap string (option QueuedPeer)) : Prop :=
  ∀ i g k, gs !! i = Some g → in_hand g = Some k → dialable dq k.

(** ** Properties *)

#[local] Set Warnings "-clear-no-such-hyp".

Ltac run_simpl :=
  repeat (cbn [fst snd node env ext trace] in *;
          unfold mbind, mret, Run_bind, Run_ret, lift, call, consult, emit, observe,
                 get_node, set_node, raise, diverge, logger_Info, logger_Warn,
                 logger_Error in *).

Ltac run_cases :=
  repeat (run_simpl;
          match goal with
          | |- context [match ?x with _ => _ end] =>
              lazymatch x with
              | context [match _ with _ => _ end] => fail
              | _ => destruct x
              end
          end).

(** A bind returns only through its continuation. *)
Lemma bind_returns {S A B} (c : Run S A) (k : A → Run S B) s b (P : Prop) :
  (∀ a s', (k a s').1 = Returned b → P) → ((c ≫= k) s).1 = Returned b → P.
Proof.
  intros H. unfold mbind, Run_bind.
  destruct (c s) as [[a| |] s']; [apply H|done..].
Qed.

Section Lifecycle.

Context {W : Type}.
Variable col : Collaborators W.

(** C9. [New] answers [ErrNoConfig] to a nil config, "nil p2p config" to a
    config without its P2P part, [ErrNoChainService] to a nil chain
    collaborator, and the error of the peer store or of the syncer when
    their construction fails; it always returns, and when it returns no
    error the node it built has an empty dial queue and no host. *)
Theorem New_validates_and_builds ctx cancel ch cfg c (w : world W) :
  (cfg = None →
   New col ctx cancel ch cfg c w = (Returned (None, Some ErrNoConfig), w)) ∧
  (∀ cfgv, cfg = Some cfgv → cfg_P2P cfgv = None →
   New col ctx cancel ch cfg c w
   = (Returned (None, Some (errors_New "nil p2p config")), w)) ∧
  (∀ cfgv, cfg = Some cfgv → is_Some (cfg_P2P cfgv) → c = None →
   New col ctx cancel ch cfg c w = (Returned (None, Some ErrNoChainService), w)) ∧
  (∀ cfgv cv prs e x,
     cfg = Some cfgv → is_Some (cfg_P2P cfgv) → c = Some cv →
     peers_New col cfgv (ext w) = ((prs, Some e), x) →
     (New col ctx cancel ch cfg c w).1 = Returned (None, Some e)) ∧
  (∀ cfgv cv prs x snc e x',
     cfg = Some cfgv → is_Some (cfg_P2P cfgv) → c = Some cv →
     peers_New col cfgv (ext w) = ((prs, None), x) →
     sync_New col ctx cfgv cv x = ((snc, Some e), x') →
     (New col ctx cancel ch cfg c w).1 = Returned (None, Some e)) ∧
  (∃ p err, (New col ctx cancel ch cfg c w).1 = Returned (p, err) ∧
     match err with
     | Some _ => p = None
     | None => ∃ pv st, p = Some pv ∧ dialQueue pv = ∅ ∧
                        state pv = Some st ∧ Host st = None
     end).
Proof.
  repeat split.
  - by intros ->.
  - intros cfgv -> H. unfold New. by rewrite H.
  - intros cfgv -> [c2 H] ->. unfold New. by rewrite H.
  - intros cfgv cv prs e x -> [c2 H] -> Hp. unfold New. rewrite H.
    run_simpl. by rewrite Hp.
  - intros cfgv cv prs x snc e x' -> [c2 H] -> Hp Hs. unfold New. rewrite H.
    run_simpl. rewrite Hp. run_simpl. by rewrite Hs.
  - unfold New. destruct cfg as [cfgv|]; [|by eexists _, (Some _)].
    destruct (cfg_P2P cfgv); [|by eexists _, (Some _)].
    destruct c as [cv|]; [|by eexists _, (Some _)].
    run_simpl.
    destruct (peers_New col cfgv (ext w)) as [[prs [e|]] x]; run_simpl;
      [by eexists _, (Some _)|].
    destruct (sync_New col ctx cfgv cv x) as [[snc [e|]] x']; run_simpl;
      [by eexists _, (Some _)|].
    eexists _, None. split; [done|]. by eexists _, _.
Qed.

(** C6. With no host yet, [Stop] returns [ErrUninitializedService] (no state)
    or [ErrNoHost] (no host) and leaves the machine as it was: no field of
    the node changes and the trace gains no event, so the cancellation
    function is not called. *)
Theorem Stop_before_Start (m : machine W) :
  state (node m) ≫= Host = None →
  Stop col m
  = (Returned (Some (match state (node m) with
                     | None => ErrUninitializedService
                     | Some _ => ErrNoHost
                     end)), m).
Proof.
  intros H. unfold Stop. run_simpl.
  destruct (state (node m)) as [st|]; [|done].
  cbn in H. by rewrite H.
Qed.

(** [IsStarted] changes nothing, and reports whether the host, asked now,
    has an address. *)
Lemma IsStarted_reports (m : machine W) :
  IsStarted col m
  = (Returned match state (node m) ≫= Host with
              | None => false
              | Some h => negb (length (Addrs col h (ext (env m))) =? 0)%nat
              end, m).
Proof.
  unfold IsStarted. destruct m as [p w]. run_simpl.
  destruct (state p) as [st|]; [|done]. cbn. by destruct (Host st).
Qed.

(** C10 (amended). A [Stop] that returns nil leaves every field of the node
    as it was (the host handle, the peer store, the config and the dial
    queue among them); the trace gains the call of the cancellation function
    and nothing else, and the world is what that call leaves. [IsStarted]
    then asks the same host for its addresses again: it reports [true]
    exactly when the host still has one after the cancellation. *)
Theorem Stop_success_frame (m m' : machine W) :
  Stop col m = (Returned None, m') →
  node m' = node m ∧
  trace (env m') = trace (env m) ++ cancellation (node m) ∧
  ext (env m') = match cancel (node m) with
                 | Some f => (run_cancel col f (ext (env m))).2
                 | None => ext (env m)
                 end ∧
  ∃ h, state (node m) ≫= Host = Some h ∧
       IsStarted col m'
       = (Returned (negb (length (Addrs col h (ext (env m'))) =? 0)%nat), m').
Proof.
  intros HStop.
  assert (node m' = node m ∧
          trace (env m') = trace (env m) ++ cancellation (node m) ∧
          ext (env m') = match cancel (node m) with
                         | Some f => (run_cancel col f (ext (env m))).2
                         | None => ext (env m)
                         end ∧
          ∃ h, state (node m) ≫= Host = Some h) as (Hn & Ht & Hx & h & Hh).
  { revert HStop. unfold Stop, cancellation. run_simpl.
    destruct (state (node m)) as [st|]; [|done].
    destruct (Host st) as [h|] eqn:Hh; [|done].
    destruct (cancel (node m)) as [f|]; run_simpl.
    - intros [= <-]. cbn. split_and!; [done..|]. by exists h.
    - intros [= <-]. destruct m as [p [x t]]. cbn in *. rewrite app_nil_r.
      split_and!; [done..|]. by exists h. }
  split_and!; [done..|]. exists h. split; [done|].
  by rewrite IsStarted_reports, Hn, Hh.
Qed.

(** With a host, [Stop] returns nil. *)
Lemma Stop_started (m : machine W) :
  is_Some (state (node m) ≫= Host) → ∃ m', Stop col m = (Returned None, m').
Proof.
  unfold Stop. run_simpl.
  destruct (state (node m)) as [st|]; [|by intros []].
  cbn. destruct (Host st); [|by intros []]. intros _.
  destruct (cancel (node m)) as [f|]; run_simpl; by eexists.
Qed.

(** C5. On a node with a config, a state and a syncer, whose config has no
    P2P part, [Start] does not return: it panics on [p.cfg.P2P.Pub], before
    any library call (the trace gains no event). *)
Theorem Start_nil_P2P_config_panics (m : machine W) cfgv st sy :
  cfg (node m) = Some cfgv → cfg_P2P cfgv = None →
  state (node m) = Some st → sync (node m) = Some sy →
  Start col m = (Panicked nil_dereference, m).
Proof.
  intros Hc Hp Hs Hy. unfold Start. run_simpl.
  by rewrite Hc, Hs, Hy, Hp.
Qed.

End Lifecycle.

Section Dispatch.

Context {W : Type}.
Variable col : Collaborators W.

(** C2. When the registry resolves the kind of the message to a handler that
    declares that kind, [handlePeerMessage] is one call of the handler's
    function on the node, the envelope's peer and the envelope's message
    (logged once), and its result is the handler's; for a nil envelope, a nil
    message, a kind without handler or a handler of another kind it returns
    an error and the machine is as before: no handler has run. Every
    envelope is of one of the two sorts. *)
Theorem handlePeerMessage_dispatch (msg : option OnMessage) (m : machine W) :
  (∀ h peer message,
     resolves col msg h peer message →
     handlePeerMessage col msg m
     = Func h (node m) peer message
         (logged m (ev_Func (Kind message) (node m) peer message))) ∧
  (undispatchable col msg →
   ∃ e, handlePeerMessage col msg m = (Returned (Some e), m)) ∧
  ((∃ h peer message, resolves col msg h peer message) ∨ undispatchable col msg).
Proof.
  split; [|split].
  - intros h peer message (envelope & -> & <- & Hm & Hh & Hk).
    unfold handlePeerMessage. rewrite Hm, Hh, Hk, Nat.eqb_refl. by run_simpl.
  - intros Hu. unfold handlePeerMessage.
    destruct Hu as [|peer|peer message h e He|peer message He
                    |peer message h He Hk]; cbn [om_Message];
      rewrite ?He; try by eexists.
    apply Nat.eqb_neq in Hk. rewrite Hk. by eexists.
  - destruct msg as [[peer [message|]]|]; [|right; constructor..].
    destruct (FromEnum col (Kind message)) as [[h|] [e|]] eqn:He;
      [right; by eapply unregistered_kind| |right; by eapply unregistered_kind
      |right; by eapply no_handler].
    destruct (decide (Type_ h = Kind message)) as [Hk|Hk].
    + left. exists h, peer, message. by eexists.
    + right. by eapply wrong_handler.
Qed.

End Dispatch.

Section Handlers.

Context {W : Type}.
Variable col : Collaborators W.

(** C7. Handed a nil stream, [protocolHandler] panics in its first statement,
    [defer stream.Close()] (the method value of a nil interface is evaluated
    there), before it looks at the state and before its own check of the
    stream: nothing is logged, registered or dialled, and the handler does
    not return. *)
Theorem protocolHandler_nil_stream_panics (m : machine W) :
  protocolHandler col None m = (Panicked nil_dereference, m).
Proof. reflexivity. Qed.

(** On a stream that is not nil, [protocolHandler] returns, leaves the node
    as it was, and the last thing it does is to close the stream. *)
Lemma protocolHandler_closes_stream (s : Stream) (m : machine W) :
  ∃ m',
    protocolHandler col (Some s) m = (Returned (), m') ∧
    node m' = node m ∧
    ∃ evs, trace (env m') = trace (env m) ++ evs ++ [ev_Close s].
Proof.
  unfold protocolHandler, defer_Close, with_stream, defer, Close.
  run_cases;
    (eexists; split; [reflexivity|]; split; [reflexivity|]);
    cbn; rewrite <- ?app_assoc; cbn;
    first [by exists [] | by eexists [_] | by eexists [_; _]
          | by eexists [_; _; _] | by eexists [_; _; _; _]].
Qed.

(** Without state or without peer store, [protocolHandler] logs, closes the
    stream and does nothing else: no peer is registered, no dial started. *)
Lemma protocolHandler_without_peer_store (s : Stream) (m : machine W) :
  state (node m) ≫= Peers = None →
  ∃ text,
    protocolHandler col (Some s) m
    = (Returned (),
       mkMachine (node m)
         (mkWorld (stream_Close col s (ext (env m))).2
                  (trace (env m) ++ [ev_logger Error text; ev_Close s]))).
Proof.
  intros H. unfold protocolHandler, defer_Close, with_stream, defer, Close.
  run_simpl.
  destruct (state (node m)) as [st|]; cbn in H; [rewrite H|]; run_simpl;
    eexists; cbn; by rewrite <- app_assoc.
Qed.

End Handlers.

Section DialQueue.

Context {W : Type}.
Variable col : Collaborators W.

Local Abbreviation backoff := (DialBackoff (Defaults col)).

Lemma backed_off_refl b q : backed_off b q q.
Proof. split; [done|]. exists 0%nat. lia. Qed.

Lemma backed_off_trans b q1 q2 q3 :
  backed_off b q1 q2 → backed_off b q2 q3 → backed_off b q1 q3.
Proof.
  intros [Hp1 [n1 H1]] [Hp2 [n2 H2]]. split; [congruence|].
  exists (n1 + n2)%nat. lia.
Qed.

Lemma advanced_refl b dq : advanced b dq dq.
Proof.
  intros k e He. exists e. split; [done|].
  destruct e; constructor. apply backed_off_refl.
Qed.

Lemma advanced_trans b dq1 dq2 dq3 :
  advanced b dq1 dq2 → advanced b dq2 dq3 → advanced b dq1 dq3.
Proof.
  intros H12 H23 k e1 H1.
  destruct (H12 k e1 H1) as (e2 & H2 & R12).
  destruct (H23 k e2 H2) as (e3 & H3 & R23).
  exists e3. split; [done|].
  destruct R12 as [q1 q2 R12|]; inversion R23; subst; constructor.
  by eapply backed_off_trans.
Qed.

(** A new key leaves the entries that were there as they were. *)
Lemma advanced_insert_fresh b dq k e :
  dq !! k = None → advanced b dq (<[k := e]> dq).
Proof.
  intros Hk k' e' He'. exists e'. split.
  - rewrite lookup_insert_ne; [done|]. congruence.
  - destruct e'; constructor. apply backed_off_refl.
Qed.

(** One backoff of one entry. *)
Lemma advanced_backoff b dq k q :
  dq !! k = Some (Some q) →
  advanced b dq (<[k := Some {| Peer := Peer q; NextDial := (NextDial q + b)%Z |}]> dq).
Proof.
  intros Hk k' e' He'. destruct (decide (k = k')) as [<-|Hne].
  - rewrite lookup_insert_eq. eexists. split; [done|].
    rewrite Hk in He'. injection He' as <-. constructor.
    split; [done|]. exists 1%nat. cbn. lia.
  - rewrite lookup_insert_ne by done. exists e'. split; [done|].
    destruct e'; constructor. apply backed_off_refl.
Qed.

Lemma effect_advanced g dq dq' :
  (∀ peer, g = at_insert peer → dq !! GetID peer = None) →
  effect backoff g dq dq' → advanced backoff dq dq'.
Proof.
  intros Hg [->|peer now Hpeer ->|k q _ Hk ->].
  - apply advanced_refl.
  - apply advanced_insert_fresh. by apply Hg.
  - by apply advanced_backoff.
Qed.

Lemma effect_dom b g dq dq' :
  effect b g dq dq' →
  dom dq ⊆ dom dq' ∧
  dom dq' ⊆ dom dq ∪ from_option (λ peer, {[GetID peer]}) ∅ (pending g).
Proof.
  intros [->|peer now -> ->|k q _ Hk ->].
  - set_solver.
  - rewrite dom_insert_L. cbn. set_solver.
  - rewrite dom_insert_L. apply elem_of_dom_2 in Hk. set_solver.
Qed.

#[local] Instance advanced_preorder b : PreOrder (advanced b).
Proof.
  split; [intros ?; apply advanced_refl|intros ???; apply advanced_trans].
Qed.

#[local] Instance grown_by_preorder ids : PreOrder (grown_by ids).
Proof. split; unfold grown_by; [intros ?|intros ???]; set_solver. Qed.

Lemma IsStarted_node (m : machine W) : node (IsStarted col m).2 = node m.
Proof. by rewrite IsStarted_reports. Qed.

Lemma dialPeer_node pr (m : machine W) : node (dialPeer col pr m).2 = node m.
Proof.
  unfold dialPeer. destruct pr as [peer|]; [|done].
  unfold mbind at 1, Run_bind at 1. rewrite IsStarted_reports.
  destruct (negb _); [done|]. run_cases; reflexivity.
Qed.

Lemma queued_Returned k (m m' : machine W) q :
  queued k m = (Returned q, m') →
  m' = m ∧ dialQueue (node m) !! k = Some (Some q).
Proof.
  unfold queued. run_simpl.
  destruct (dialQueue (node m) !! k) as [[q0|]|]; [|done..]. by intros [= <- <-].
Qed.

Lemma queued_keeps_node k (m : machine W) : node (queued k m).2 = node m.
Proof.
  unfold queued. run_simpl. by destruct (dialQueue (node m) !! k) as [[q0|]|].
Qed.

(** What one statement does to the queue. *)
Lemma dialPeers_step_effect g (m : machine W) :
  effect backoff g (dialQueue (node m))
         (dialQueue (node (dialPeers_step col g m).2)).
Proof.
  destruct g as [pr|[peer|]|peer| | |now|now [|k ks]|now k ks|now k ks|now k ks|];
    cbn [dialPeers_step].
  - apply effect_none. unfold mbind at 1, Run_bind at 1.
    rewrite IsStarted_reports. by destruct (negb _).
  - apply effect_none. run_simpl. by destruct (dialQueue (node m) !! GetID peer).
  - by apply effect_none.
  - eapply effect_insert; [done|]. unfold clock. run_simpl. reflexivity.
  - apply effect_none. unfold select. run_simpl.
    by destruct (select_Done col _ _ _).1.
  - by apply effect_none.
  - by apply effect_none.
  - by apply effect_none.
  - apply effect_none. run_simpl.
    destruct (dialQueue (node m) !! k) as [[q|]|]; [|done..].
    destruct (now <? NextDial q)%Z; [done|]. by destruct (Peer q).
  - apply effect_none. unfold mbind at 1, Run_bind at 1.
    destruct (queued k m) as [[q| |] m1] eqn:Hq;
      [|by rewrite <- (queued_keeps_node k m), Hq..].
    apply queued_Returned in Hq as [-> Hq].
    destruct (Peer q); [|done]. run_simpl.
    by destruct (IsActive col _ _).1 as [active err], (bool_decide _ || active).
  - unfold mbind at 1, Run_bind at 1.
    destruct (queued k m) as [[q| |] m1] eqn:Hq;
      [|apply effect_none; by rewrite <- (queued_keeps_node k m), Hq..].
    apply queued_Returned in Hq as [-> Hq].
    by eapply effect_backoff.
  - apply effect_none. unfold mbind at 1, Run_bind at 1.
    destruct (queued k m) as [[q| |] m1] eqn:Hq;
      [|by rewrite <- (queued_keeps_node k m), Hq..].
    apply queued_Returned in Hq as [-> Hq].
    unfold mbind at 1, Run_bind at 1. unfold mbind at 1, Run_bind at 1.
    pose proof (dialPeer_node (Peer q) m) as Hn.
    destruct (dialPeer col (Peer q) m) as [[[e|]| |] m1]; cbn in Hn;
      [|cbn; congruence..].
    unfold mbind at 1, Run_bind at 1.
    pose proof (queued_keeps_node k m1) as Hn1.
    destruct (queued k m1) as [[q1| |] m2]; cbn in Hn1; [|cbn; congruence..].
    destruct (Peer q1); cbn; congruence.
  - by apply effect_none.
Qed.

(** Where one statement leaves the goroutine: nothing more to insert, or
    the same peer to insert and the queue as it was; and it stands at the
    insertion only when it has just found the key absent. *)
Lemma dialPeers_step_next g (m : machine W) g' :
  (dialPeers_step col g m).1 = Returned g' →
  pending g' = None ∨
  (pending g' = pending g ∧
   dialQueue (node (dialPeers_step col g m).2) = dialQueue (node m) ∧
   ∀ peer, g' = at_insert peer → dialQueue (node m) !! GetID peer = None).
Proof.
  destruct g as [pr|[peer|]|peer| | |now|now [|k ks]|now k ks|now k ks|now k ks|].
  - cbn [dialPeers_step]. unfold mbind, Run_bind. rewrite IsStarted_reports.
    destruct (negb _); run_simpl; intros [= <-]; [by left|].
    right. split_and!; [done..|]. by intros ? [=].
  - cbn [dialPeers_step]. run_simpl.
    destruct (dialQueue (node m) !! GetID peer) eqn:Hk;
      intros [= <-]; [by left|]. right. split_and!; [done..|]. by intros ? [= <-].
  - intros [= <-]. by left.
  - intros Hret. left. revert Hret. cbn [dialPeers_step].
    do 3 (apply bind_returns; intros ? ?). by intros [= <-].
  - intros Hret. left. revert Hret. cbn [dialPeers_step].
    do 2 (apply bind_returns; intros ? ?).
    destruct a0; [apply bind_returns; intros ? ?|]; by intros [= <-].
  - intros Hret. left. revert Hret. cbn [dialPeers_step].
    apply bind_returns; intros ? ?. by intros [= <-].
  - intros Hret. left. revert Hret. cbn [dialPeers_step].
    do 2 (apply bind_returns; intros ? ?). by intros [= <-].
  - intros [= <-]. by left.
  - intros Hret. left. revert Hret. cbn [dialPeers_step].
    apply bind_returns; intros p m1.
    destruct (dialQueue p !! k) as [[q|]|]; [|by intros [= <-]..].
    destruct (now <? NextDial q)%Z; [by intros [= <-]|].
    destruct (Peer q); by intros [= <-].
  - intros Hret. left. revert Hret. cbn [dialPeers_step].
    apply bind_returns; intros q m1. destruct (Peer q); [|done].
    apply bind_returns; intros [active err] m2.
    destruct (bool_decide _ || active); by intros [= <-].
  - intros Hret. left. revert Hret. cbn [dialPeers_step].
    do 3 (apply bind_returns; intros ? ?). by intros [= <-].
  - intros Hret. left. revert Hret. cbn [dialPeers_step].
    do 3 (apply bind_returns; intros ? ?). by intros [= <-].
  - intros [= <-]. by left.
Qed.

Lemma lookup_turn (gs : list dialing) i g g' j :
  gs !! i = Some g →
  <[i := g']> gs !! j = if decide (i = j) then Some g' else gs !! j.
Proof.
  intros Hi. rewrite list_lookup_insert. apply lookup_lt_Some in Hi.
  destruct (decide (i = j)); [|by rewrite decide_False by tauto].
  by rewrite decide_True.
Qed.

(** One turn of a pool whose insertions are apart: the entries of the
    queue are kept or advanced, and the insertions are still apart. *)
Lemma turn_apart i gs (m : machine W) :
  apart gs → unqueued gs (dialQueue (node m)) →
  advanced backoff (dialQueue (node m)) (dialQueue (node (turn col i gs m).2)) ∧
  ∀ gs', (turn col i gs m).1 = Returned gs' →
         apart gs' ∧ unqueued gs' (dialQueue (node (turn col i gs m).2)).
Proof.
  intros Ha Hu. unfold turn.
  destruct (gs !! i) as [g|] eqn:Hi.
  2:{ split; [apply advanced_refl|]. by intros gs' [= <-]. }
  unfold mbind, Run_bind.
  pose proof (dialPeers_step_effect g m) as He.
  pose proof (dialPeers_step_next g m) as Hnext.
  destruct (dialPeers_step col g m) as [[g'| |] m1]; cbn in He, Hnext |- *;
    (split; [eapply effect_advanced; [|done]; intros peer ->; by eapply Hu|]);
    [|done..].
  intros gs' [= <-]. specialize (Hnext g' eq_refl).
  assert (∀ j a, <[i := g']> gs !! j ≫= pending = Some a →
                 gs !! j ≫= pending = Some a) as Hback.
  { intros j a. rewrite (lookup_turn _ _ _ _ _ Hi).
    destruct (decide (i = j)) as [<-|]; [|done]. rewrite Hi. cbn.
    destruct Hnext as [->|(-> & _)]; done. }
  split.
  - intros j1 j2 a b H1 H2. apply (Ha j1 j2 a b); by apply Hback.
  - intros j peer. rewrite (lookup_turn _ _ _ _ _ Hi).
    destruct (decide (i = j)) as [<-|Hne].
    + intros [= ->]. destruct Hnext as [|(_ & -> & Hk)]; [done|]. by apply Hk.
    + intros Hj. pose proof (Hu j peer Hj) as Hk.
      destruct He as [->|peer' now -> ->|k q _ Hq ->]; [done| |].
      * rewrite lookup_insert_ne; [done|]. intros Hid.
        apply Hne, (Ha i j peer' peer); [by rewrite Hi|by rewrite Hj|done].
      * rewrite lookup_insert_ne; [done|]. congruence.
Qed.

Lemma interleaving_apart schedule gs (m : machine W) :
  apart gs → unqueued gs (dialQueue (node m)) →
  advanced backoff (dialQueue (node m))
           (dialQueue (node (interleaving col schedule gs m).2)).
Proof.
  revert gs m. induction schedule as [|i rest IH]; intros gs m Ha Hu;
    cbn [interleaving]; [apply advanced_refl|].
  unfold mbind, Run_bind.
  destruct (turn_apart i gs m Ha Hu) as [Hadv Hnext].
  destruct (turn col i gs m) as [[gs'| |] m1]; cbn in Hadv, Hnext |- *;
    [|done..].
  destruct (Hnext gs' eq_refl) as [Ha' Hu'].
  etrans; [done|]. by apply IH.
Qed.

(** While the calls of [dialPeers] for one peer do not overlap before their
    insertion, an entry of the queue stays in the queue with its peer, and
    its [NextDial] is what it was plus a number of backoffs, whatever the
    schedule: with a backoff that is not negative it never moves backward. *)
Lemma NextDial_monotone_apart schedule gs (m : machine W) k q :
  (0 ≤ backoff)%Z →
  apart gs → unqueued gs (dialQueue (node m)) →
  dialQueue (node m) !! k = Some (Some q) →
  ∃ q', dialQueue (node (interleaving col schedule gs m).2) !! k = Some (Some q') ∧
        Peer q' = Peer q ∧
        (NextDial q ≤ NextDial q')%Z ∧
        ∃ n : nat, NextDial q' = (NextDial q + Z.of_nat n * backoff)%Z.
Proof.
  intros Hb Ha Hu Hq.
  destruct (interleaving_apart schedule gs m Ha Hu k _ Hq) as (e' & He' & R).
  inversion R as [? q' [Hp [n Hn]]|]; subst.
  exists q'. repeat split; [done..| |by exists n]. nia.
Qed.

(** One call alone is apart from every other. *)
Lemma apart_one g : apart [g].
Proof. intros [|i] [|j] a b; by cbn. Qed.

(** One call of [dialPeers], run alone from its first statement for any
    number of steps, never moves a [NextDial] backward. *)
Lemma NextDial_monotone_one_call steps pr (m : machine W) k q :
  (0 ≤ backoff)%Z →
  dialQueue (node m) !! k = Some (Some q) →
  ∃ q', dialQueue (node (interleaving col (replicate steps 0) [at_IsStarted pr] m).2)
          !! k = Some (Some q') ∧
        Peer q' = Peer q ∧ (NextDial q ≤ NextDial q')%Z.
Proof.
  intros Hb Hq.
  destruct (NextDial_monotone_apart (replicate steps 0) [at_IsStarted pr] m k q)
    as (q' & Hq' & Hp & Hle & _); [done|apply apart_one| |done|by exists q'].
  by intros [|i] peer.
Qed.

Lemma elem_of_identities id gs :
  id ∈ identities gs ↔ ∃ i peer, gs !! i ≫= pending = Some peer ∧ GetID peer = id.
Proof.
  unfold identities. rewrite elem_of_list_to_set, list_elem_of_omap. split.
  - intros (g & [i Hi]%list_elem_of_lookup & Hg).
    destruct (pending g) as [peer|] eqn:Hp; [|done]. injection Hg as <-.
    exists i, peer. by rewrite Hi.
  - intros (i & peer & Hi & <-).
    destruct (gs !! i) as [g|] eqn:Hg; [|done]. cbn in Hi.
    exists g. split; [by eapply list_elem_of_lookup_2|]. by rewrite Hi.
Qed.

Lemma turn_keys i gs (m : machine W) :
  grown_by (identities gs) (dialQueue (node m))
           (dialQueue (node (turn col i gs m).2)) ∧
  ∀ gs', (turn col i gs m).1 = Returned gs' → identities gs' ⊆ identities gs.
Proof.
  unfold turn. destruct (gs !! i) as [g|] eqn:Hi.
  2:{ split; [done|]. by intros gs' [= <-]. }
  unfold mbind, Run_bind.
  pose proof (effect_dom _ _ _ _ (dialPeers_step_effect g m)) as [Hsub Hsup].
  pose proof (dialPeers_step_next g m) as Hnext.
  assert (from_option (λ peer, {[GetID peer]}) ∅ (pending g) ⊆ identities gs)
    as Hg.
  { destruct (pending g) as [peer|] eqn:Hp; cbn; [|set_solver].
    apply singleton_subseteq_l, elem_of_identities. exists i, peer.
    by rewrite Hi. }
  destruct (dialPeers_step col g m) as [[g'| |] m1]; cbn [fst snd] in *;
    (split; [unfold grown_by; set_solver|]); [|done..].
  intros gs' [= <-]. specialize (Hnext g' eq_refl).
  intros id (j & peer & Hj & <-)%elem_of_identities.
  apply elem_of_identities. exists j, peer. split; [|done].
  revert Hj. rewrite (lookup_turn _ _ _ _ _ Hi).
  destruct (decide (i = j)) as [<-|]; [|done]. rewrite Hi. cbn.
  destruct Hnext as [->|(-> & _)]; done.
Qed.

(** Whatever the schedule, the queue keeps its keys and gains none but the
    identities of the peers that the calls were given: one entry at most
    for each. *)
Lemma interleaving_keys schedule gs (m : machine W) :
  grown_by (identities gs) (dialQueue (node m))
           (dialQueue (node (interleaving col schedule gs m).2)).
Proof.
  revert gs m. induction schedule as [|i rest IH]; intros gs m;
    cbn [interleaving]; [done|].
  unfold mbind, Run_bind.
  destruct (turn_keys i gs m) as [Hgrown Hids].
  destruct (turn col i gs m) as [[gs'| |] m1]; cbn [fst snd] in *; [|done..].
  specialize (IH gs' m1). specialize (Hids gs' eq_refl).
  unfold grown_by in *. set_solver.
Qed.

(** Calls for one peer, however they overlap, leave the queue with at most
    one entry more. *)
Lemma interleaving_one_key schedule gs (m : machine W) peer :
  identities gs ⊆ {[GetID peer]} →
  size (dialQueue (node (interleaving col schedule gs m).2))
  ≤ S (size (dialQueue (node m))).
Proof.
  intros Hids. destruct (interleaving_keys schedule gs m) as [_ Hsup].
  rewrite <- !size_dom.
  etrans; [apply (subseteq_size _ _ Hsup)|].
  rewrite size_union_alt.
  assert (size (identities gs ∖ dom (dialQueue (node m))) ≤ 1) as Hone.
  { rewrite <- (size_singleton (C := gset string) (GetID peer)).
    apply subseteq_size. set_solver. }
  lia.
Qed.

End DialQueue.

Section Ping.

Context {W : Type}.
Variable col : Collaborators W.

(** The first byte that arrives is stored into [b2], which has no room:
    the loop panics. *)
Lemma read_pong_first_byte_panics fuel r c r' (w w' : world W) :
  Reader_ReadByte col r w = (Returned ((c, None), r'), w') →
  read_pong col (S fuel) r [] 0 w = (Panicked (index_out_of_range 0 0), w').
Proof. intros H. cbn [read_pong]. run_simpl. by rewrite H. Qed.

(** What the loop hands to the comparison is the empty [b2] it began with. *)
Lemma read_pong_returns_nil fuel r (w w' : world W) res :
  read_pong col fuel r [] 0 w = (Returned res, w') →
  match res with inl _ => True | inr b2 => b2 = [] end.
Proof.
  destruct fuel as [|fuel]; [done|]. cbn [read_pong]. run_simpl.
  destruct (Reader_ReadByte col r w) as [[[[c [e|]] r']| |] w1]; [| |done..].
  - destruct (is_EOF e); [by intros [= <- _]|]. cbn. by intros [= <- _].
  - done.
Qed.

Lemma bytes_Equal_resize_nil n x got : bytes_Equal (resize (S n) x got) [] = false.
Proof. by destruct got. Qed.

Lemma bind_never_nil {S A} (c : Run S A) (k : A → Run S (option error)) s :
  (∀ a s', c s = (Returned a, s') → (k a s').1 ≠ Returned None) →
  ((c ≫= k) s).1 ≠ Returned None.
Proof.
  intros H. unfold mbind, Run_bind.
  destruct (c s) as [[a| |] s']; [by apply H|done..].
Qed.

Lemma defer_never_nil {S} (d : Run S unit) (body : Run S (option error)) s :
  (body s).1 ≠ Returned None → (defer d body s).1 ≠ Returned None.
Proof.
  unfold defer. destruct (body s) as [[[e|]| |] s']; [|done| |done]; intros _;
    by destruct (d s') as [[[]| |] s''].
Qed.

(** [sendPingToPeer] never returns nil: it returns an error, panics, or is
    still reading. *)
Lemma sendPingToPeer_never_nil pr fuel (m : machine W) :
  (sendPingToPeer col pr fuel m).1 ≠ Returned None.
Proof.
  unfold sendPingToPeer. destruct pr as [peer|]; [|done].
  apply bind_never_nil. intros p m1 _.
  destruct (state p) as [st|]; [|done]. destruct (Host st) as [h|]; [|done].
  apply bind_never_nil. intros [stream [e|]] m2 _; [done|].
  unfold defer_Close, with_stream. destruct stream as [s|]; [|done].
  apply defer_never_nil.
  apply bind_never_nil. intros now m3 _.
  apply bind_never_nil. intros [e|] m4 _; [done|].
  apply bind_never_nil. intros [got [e|]] m5 _; [done|].
  apply bind_never_nil. intros [[n [e|]] w] m6 _; [done|].
  apply bind_never_nil. intros [[e|] w'] m7 _; [done|].
  apply bind_never_nil. intros res m8 Hres.
  destruct res as [e|b2]; [done|].
  unfold lift in Hres.
  destruct (read_pong col fuel (bufio_NewReader s) [] 0 (env m7))
    as [[res| |] w8] eqn:Hpong; [|done..].
  apply read_pong_returns_nil in Hpong. injection Hres as -> _. subst b2.
  change 32 with (S 31). rewrite bytes_Equal_resize_nil. cbn [negb].
  apply bind_never_nil. by intros _ m9 _.
Qed.

End Ping.

(** C1. The remote echoes the 32 bytes of the nonce within the deadline:
    [sendPingToPeer] writes the nonce, reads, and panics on the first byte of
    the pong, which it stores at index 0 of the nil slice [b2]; the deferred
    [Close] runs, and the call does not return nil. *)
Theorem sendPingToPeer_echoed_nonce_panics fuel :
  seen (sendPingToPeer wire_col (Some wire_peer) (S fuel)
          (on_wire started_node echo_wire))
  = (Panicked (index_out_of_range 0 0),
     [ev_NewStream wire_host "QmRemote" "/ipfs/ping/1.0.0";
      ev_SetDeadline wire_stream 6000;
      ev_rand_Read;
      ev_Write wire_stream wire_nonce;
      ev_Read wire_stream 4096;
      ev_Close wire_stream],
     mkWire [] true 1001).
Proof. vm_compute. reflexivity. Qed.

(** C8. The remote has sent the 32 bytes of a ping and closed its side:
    [pingHandler] reads them into the buffer of its writer, reads the end of
    the stream, and closes the stream without a [Flush]: no byte is written
    back. *)
Theorem pingHandler_writes_nothing_back fuel :
  seen (pingHandler wire_col (Some wire_stream) (S (S fuel))
          (on_wire started_node sent_wire))
  = (Returned (),
     [ev_Read wire_stream 4096; ev_Read wire_stream 4064; ev_Close wire_stream],
     mkWire [] false 1000).
Proof. vm_compute. reflexivity. Qed.

(** C3. Two calls of [dialPeers] for the same peer overlap: each looks the
    peer up before either has inserted it. The first call inserts the peer
    (due at 1000), waits for its tick and sweeps: the entry is due and the
    peer is not active, so [NextDial] is advanced by one backoff, to 301000.
    Then the second call makes its insertion: it replaces the entry, and
    [NextDial] moves back to the time of that insertion, 16002. *)
Theorem NextDial_set_back_by_racing_insertion :
  let schedule := [0; 1; 0; 1; 0; 0; 0; 0; 0; 0; 0] in
  let before :=
    interleaving wire_col schedule two_calls (on_wire started_node echo_wire) in
  let after :=
    interleaving wire_col (schedule ++ [1]) two_calls
      (on_wire started_node echo_wire) in
  before.1 = Returned [at_dialPeer 16001 "QmRemote" []; at_insert wire_peer] ∧
  dialQueue (node before.2) !! "QmRemote"
  = Some (Some {| Peer := Some wire_peer; NextDial := 301000 |}) ∧
  after.1 = Returned [at_dialPeer 16001 "QmRemote" []; at_select] ∧
  dialQueue (node after.2) !! "QmRemote"
  = Some (Some {| Peer := Some wire_peer; NextDial := 16002 |}).
Proof. vm_compute. done. Qed.

(** C4. Two calls of [dialPeers] for the same peer overlap: each finds the
    queue without the peer. The first inserts its entry (due at 1000); the
    second, which looked before that, inserts its own over it (due at
    1001): the entry that was in the queue is replaced, not left as it was.
    The queue has one entry for the peer throughout. *)
Theorem racing_insertion_replaces_entry :
  let schedule := [0; 1; 0; 1; 0] in
  let before :=
    interleaving wire_col schedule two_calls (on_wire started_node echo_wire) in
  let after :=
    interleaving wire_col (schedule ++ [1]) two_calls
      (on_wire started_node echo_wire) in
  before.1 = Returned [at_select; at_insert wire_peer] ∧
  map_to_list (dialQueue (node before.2))
  = [("QmRemote", Some {| Peer := Some wire_peer; NextDial := 1000 |})] ∧
  after.1 = Returned [at_select; at_select] ∧
  map_to_list (dialQueue (node after.2))
  = [("QmRemote", Some {| Peer := Some wire_peer; NextDial := 1001 |})].
Proof. vm_compute. done. Qed.

(** C10, as it was stated, fails on a host that is bound to the context:
    the node reports started, [Stop] returns nil, and the node, with the
    same host handle, no longer reports started. *)
Lemma Stop_ends_IsStarted :
  (IsStarted bound_col bound_machine).1 = Returned true ∧
  (Stop bound_col bound_machine).1 = Returned None ∧
  node (Stop bound_col bound_machine).2 = node bound_machine ∧
  (IsStarted bound_col (Stop bound_col bound_machine).2).1 = Returned false.
Proof. vm_compute. done. Qed.

(** ** The statements at work on the wire *)

Lemma New_validates_and_builds_witness :
  ∃ p, (New wire_col (context 0) (Some (cancel_func 0)) (chan 0)
          (Some wire_cfg) (Some (chains 0)) (mkWorld echo_wire [])).1
       = Returned (Some p, None) ∧
       dialQueue p = ∅ ∧ state p ≫= Host = None.
Proof.
  destruct (New_validates_and_builds wire_col (context 0) (Some (cancel_func 0))
              (chan 0) (Some wire_cfg) (Some (chains 0)) (mkWorld echo_wire []))
    as (_ & _ & _ & _ & _ & p & err & Hret & Hp).
  vm_compute in Hret. injection Hret as <- <-.
  destruct Hp as (pv & st & [= <-] & Hq & [= <-] & Hh).
  eexists. split; [reflexivity|]. split; [exact Hq|reflexivity].
Defined.

Lemma Stop_before_Start_witness :
  state fresh_node ≫= Host = None ∧
  Stop wire_col (on_wire fresh_node echo_wire)
  = (Returned (Some ErrNoHost), on_wire fresh_node echo_wire).
Proof.
  split; [reflexivity|].
  apply (Stop_before_Start wire_col (on_wire fresh_node echo_wire)).
  reflexivity.
Defined.

Lemma Stop_success_frame_witness :
  Stop wire_col (on_wire started_node echo_wire)
  = (Returned None,
     logged (on_wire started_node echo_wire) (ev_cancel (cancel_func 0))) ∧
  IsStarted wire_col
    (logged (on_wire started_node echo_wire) (ev_cancel (cancel_func 0)))
  = (Returned true,
     logged (on_wire started_node echo_wire) (ev_cancel (cancel_func 0))).
Proof.
  assert (Stop wire_col (on_wire started_node echo_wire)
          = (Returned None,
             logged (on_wire started_node echo_wire) (ev_cancel (cancel_func 0))))
    as HStop by reflexivity.
  split; [exact HStop|].
  destruct (Stop_success_frame wire_col _ _ HStop) as (_ & _ & _ & h & Hh & Hs).
  injection Hh as <-. exact Hs.
Defined.

Lemma Start_nil_P2P_config_panics_witness :
  cfg node_without_P2P_config = Some (mkConfigClient None) ∧
  Start wire_col (on_wire node_without_P2P_config echo_wire)
  = (Panicked nil_dereference, on_wire node_without_P2P_config echo_wire).
Proof.
  split; [reflexivity|].
  by eapply (Start_nil_P2P_config_panics wire_col
               (on_wire node_without_P2P_config echo_wire)).
Defined.

Lemma handlePeerMessage_dispatch_witness :
  resolves wire_col (Some status_message) status_handler (Some wire_peer)
    (mkMessage 1 []) ∧
  handlePeerMessage wire_col (Some status_message) (on_wire started_node echo_wire)
  = (Returned None,
     logged (on_wire started_node echo_wire)
       (ev_Func 1 started_node (Some wire_peer) (mkMessage 1 []))) ∧
  undispatchable wire_col (Some (mkOnMessage (Some wire_peer) (Some (mkMessage 7 [])))) ∧
  handlePeerMessage wire_col
    (Some (mkOnMessage (Some wire_peer) (Some (mkMessage 7 []))))
    (on_wire started_node echo_wire)
  = (Returned (Some (errors_New "unknown message")), on_wire started_node echo_wire).
Proof.
  assert (resolves wire_col (Some status_message) status_handler
            (Some wire_peer) (mkMessage 1 [])) as Hr.
  { by eexists. }
  assert (undispatchable wire_col
            (Some (mkOnMessage (Some wire_peer) (Some (mkMessage 7 []))))) as Hu.
  { by eapply unregistered_kind. }
  split; [exact Hr|]. split; [|split; [exact Hu|]].
  - destruct (handlePeerMessage_dispatch wire_col (Some status_message)
                (on_wire started_node echo_wire)) as (H & _ & _).
    rewrite (H _ _ _ Hr). reflexivity.
  - destruct (handlePeerMessage_dispatch wire_col
                (Some (mkOnMessage (Some wire_peer) (Some (mkMessage 7 []))))
                (on_wire started_node echo_wire)) as (_ & H & _).
    destruct (H Hu) as [e He]. reflexivity.
Defined.

(** ** Further properties *)

Section Runs.

Context {S : Type} (R : relation S) `{!PreOrder R}.

Lemma bind_rel {A B} (c : Run S A) (k : A → Run S B) s :
  R s (c s).2 →
  (∀ a s', c s = (Returned a, s') → R s' (k a s').2) →
  R s ((c ≫= k) s).2.
Proof.
  intros Hc Hk. unfold mbind, Run_bind.
  destruct (c s) as [[a| |] s'] eqn:Hcs; cbn in *; [|done..].
  etrans; [exact Hc|]. by apply Hk.
Qed.

Lemma preserves_bind {A B} (c : Run S A) (k : A → Run S B) :
  preserves R c → (∀ a, preserves R (k a)) → preserves R (c ≫= k).
Proof. intros Hc Hk s. apply bind_rel; [apply Hc|]. intros a s' _. apply Hk. Qed.

Lemma preserves_ret {A} (a : A) : preserves R (mret a : Run S A).
Proof. by intros s. Qed.

Lemma preserves_raise {A} why : preserves R (raise why : Run S A).
Proof. by intros s. Qed.

Lemma preserves_diverge {A} : preserves R (diverge : Run S A).
Proof. by intros s. Qed.

Lemma preserves_defer {A} (d : Run S unit) (body : Run S A) :
  preserves R d → preserves R body → preserves R (defer d body).
Proof.
  intros Hd Hb s. unfold defer. specialize (Hb s).
  destruct (body s) as [[a| |] s']; cbn in *; [| |done];
    specialize (Hd s'); destruct (d s') as [[[]| |] s'']; cbn in *;
    by etrans.
Qed.

End Runs.

Section Traces.

Context {W : Type}.
Variable P : event → Prop.

#[global] Instance emits_preorder : PreOrder (@emits W P).
Proof.
  split.
  - intros w. exists []. by rewrite app_nil_r.
  - intros w1 w2 w3 (evs1 & H1 & F1) (evs2 & H2 & F2).
    exists (evs1 ++ evs2). split; [by rewrite H2, H1, app_assoc|].
    by apply Forall_app.
Qed.

#[global] Instance emits_on_preorder : PreOrder (@emits_on W P).
Proof.
  split.
  - intros m. by split.
  - intros m1 m2 m3 [N1 E1] [N2 E2]. split; [congruence|by etrans].
Qed.

Lemma emits_emit e : P e → preserves (@emits W P) (emit e).
Proof. intros He w. exists [e]. split; [done|]. by constructor. Qed.

Lemma emits_call {A} e (f : W → A * W) : P e → preserves (emits P) (call e f).
Proof. intros He w. exists [e]. split; [done|]. by constructor. Qed.

Lemma emits_consult {A} (f : W → A * W) : preserves (emits P) (consult f).
Proof. intros w. exists []. cbn. by rewrite app_nil_r. Qed.

Lemma emits_observe {A} (f : W → A) : preserves (emits P) (observe f).
Proof. intros w. exists []. cbn. by rewrite app_nil_r. Qed.

Lemma emits_on_lift {A} (c : Run (world W) A) :
  preserves (emits P) c → preserves (emits_on P) (lift c).
Proof. intros Hc m. split; [done|]. apply Hc. Qed.

Lemma emits_on_get_node : preserves (emits_on P) (get_node : Run (machine W) P2P).
Proof. intros m. cbn. reflexivity. Qed.

End Traces.

Section Buffered.

Context {W : Type}.
Variable col : Collaborators W.

Section Quiet.

Variable ok : list byte → Prop.
Local Abbreviation quiet := (emits (W := W) (writes ok)).

Lemma Read_quiet s room : preserves quiet (Read col s room).
Proof.
  unfold Read. apply (preserves_bind _); [by apply emits_call|].
  intros [got err]. apply (preserves_ret _).
Qed.

Lemma Read_returns s room (w : world W) :
  ∃ got err w',
    Read col s room w = (Returned (got, err), w') ∧ length got ≤ room.
Proof.
  unfold Read. run_simpl.
  destruct (stream_Read col s room (ext w)) as [[got err] x]. cbn.
  eexists _, _, _. split; [done|]. rewrite length_take. lia.
Qed.

Lemma Write_quiet s data : ok data → preserves quiet (Write col s data).
Proof.
  intros Hok. unfold Write. apply (preserves_bind _); [by apply emits_call|].
  intros [n err]. apply (preserves_ret _).
Qed.

Lemma Writer_Flush_quiet b : ok (w_buf b) → preserves quiet (Writer_Flush col b).
Proof.
  intros Hok. unfold Writer_Flush.
  destruct (w_err b); [apply (preserves_ret _)|].
  destruct (w_buf b) eqn:Hb; [apply (preserves_ret _)|].
  rewrite <- Hb in Hok |- *.
  apply (preserves_bind _); [by apply Write_quiet|]. intros [n err]. cbn zeta.
  destruct (_ && _); [apply (preserves_ret _)|].
  destruct err; apply (preserves_ret _).
Qed.

(** [Flush] returns; when it reports no error on a writer without error,
    the buffer is empty. *)
Lemma Writer_Flush_returns b (w : world W) :
  ∃ err b' w',
    Writer_Flush col b w = (Returned (err, b'), w') ∧
    (err = None → w_buf b' = [] ∧ w_err b' = None).
Proof.
  unfold Writer_Flush.
  destruct (w_err b) eqn:He; [by eexists _, _, _|].
  destruct (w_buf b) eqn:Hb; [by eexists _, _, _|]. rewrite <- Hb.
  unfold Write. run_simpl.
  destruct (stream_Write col (w_wr b) (w_buf b) (ext w)) as [[n err] x]. cbn.
  destruct (_ && _); [by eexists _, _, _|].
  destruct err; by eexists _, _, _.
Qed.

Lemma read_some_quiet tries s room : preserves quiet (read_some col tries s room).
Proof.
  induction tries as [|tries IH]; cbn [read_some]; [apply (preserves_ret _)|].
  apply (preserves_bind _); [apply Read_quiet|]. intros [got err].
  destruct (_ || _); [apply (preserves_ret _)|apply IH].
Qed.

Lemma read_some_returns tries s room (w : world W) :
  ∃ res w',
    read_some col tries s room w = (Returned res, w') ∧
    ∀ got err, res = Some (got, err) → length got ≤ room.
Proof.
  revert w. induction tries as [|tries IH]; intros w; cbn [read_some].
  { by eexists _, _. }
  destruct (Read_returns s room w) as (got & err & w' & HR & Hlen).
  unfold mbind, Run_bind at 1. rewrite HR.
  destruct (_ || _); [|apply IH].
  eexists _, _. split; [done|]. by intros ?? [= <- <-].
Qed.

Lemma Reader_fill_quiet tries b : preserves quiet (Reader_fill col tries b).
Proof.
  revert b. induction tries as [|tries IH]; intros b; cbn [Reader_fill];
    [apply (preserves_ret _)|].
  apply (preserves_bind _); [apply Read_quiet|]. intros [got err].
  destruct err; [apply (preserves_ret _)|].
  destruct (negb _); [apply (preserves_ret _)|apply IH].
Qed.

(** [fill] returns, and a reader that was empty has data or an error. *)
Lemma Reader_fill_returns tries b (w : world W) :
  ∃ b' w',
    Reader_fill col tries b w = (Returned b', w') ∧
    (r_buf b' ≠ [] ∨ is_Some (r_err b')).
Proof.
  revert b w. induction tries as [|tries IH]; intros b w; cbn [Reader_fill].
  { eexists _, _. split; [done|]. right. by eexists. }
  destruct (Read_returns (r_rd b) (defaultBufSize - length (r_buf b)) w)
    as (got & err & w' & HR & _).
  unfold mbind, Run_bind at 1. rewrite HR.
  destruct err as [e|].
  { eexists _, _. split; [done|]. right. by eexists. }
  destruct got as [|c got]; cbn [length Nat.eqb negb]; [apply IH|].
  eexists _, _. split; [done|]. left. cbn. by destruct (r_buf b).
Qed.

Lemma Reader_ReadByte_quiet b : preserves quiet (Reader_ReadByte col b).
Proof.
  unfold Reader_ReadByte. cbn [Reader_ReadByte_loop].
  destruct (r_buf b); [|apply (preserves_ret _)].
  destruct (r_err b); [apply (preserves_ret _)|].
  apply (preserves_bind _); [apply Reader_fill_quiet|]. intros b'.
  destruct (r_buf b'); [|apply (preserves_ret _)].
  destruct (r_err b'); [apply (preserves_ret _)|apply (preserves_diverge _)].
Qed.

Lemma Reader_ReadByte_returns b (w : world W) :
  ∃ res w', Reader_ReadByte col b w = (Returned res, w').
Proof.
  unfold Reader_ReadByte. cbn [Reader_ReadByte_loop].
  destruct (r_buf b); [|by eexists _, _].
  destruct (r_err b); [by eexists _, _|].
  destruct (Reader_fill_returns maxConsecutiveEmptyReads b w)
    as (b' & w' & HF & Hb').
  unfold mbind, Run_bind at 1. rewrite HF.
  destruct (r_buf b'); [|by eexists _, _].
  destruct (r_err b'); [by eexists _, _|].
  destruct Hb' as [?|[? ?]]; done.
Qed.

Lemma read_pong_quiet fuel r b2 nb : preserves quiet (read_pong col fuel r b2 nb).
Proof.
  revert r b2 nb. induction fuel as [|fuel IH]; intros r b2 nb; cbn [read_pong];
    [apply (preserves_diverge _)|].
  apply (preserves_bind _); [apply Reader_ReadByte_quiet|].
  intros [[c err] r']. destruct err as [e|].
  - destruct (is_EOF e); [apply (preserves_ret _)|].
    destruct (_ <=? _); apply (preserves_ret _).
  - destruct (_ <? _); [apply IH|apply (preserves_raise _)].
Qed.

End Quiet.

(** A write into an empty buffer that has room for it stays in the buffer. *)
Lemma Writer_Write_fresh s p (w : world W) :
  length p ≤ defaultBufSize →
  Writer_Write col (bufio_NewWriter s) p w
  = (Returned ((length p, None), mkWriter None p s), w).
Proof.
  intros Hp. unfold Writer_Write.
  replace (2 * length p + 2) with (S (2 * length p + 1)) by lia.
  cbn [Writer_Write_loop]. unfold Available, bufio_NewWriter.
  cbn [w_buf w_err w_wr length]. rewrite Nat.sub_0_r.
  rewrite (proj2 (Nat.ltb_ge _ _) Hp). reflexivity.
Qed.

(** The first pass of the loop of [sendPingToPeer] ends it. *)
Lemma read_pong_ends fuel r (w : world W) :
  (read_pong col (S fuel) r [] 0 w).1 ≠ Diverged.
Proof.
  cbn [read_pong]. destruct (Reader_ReadByte_returns r w) as ([[c err] r'] & w' & HR).
  unfold mbind, Run_bind at 1. rewrite HR. destruct err as [e|]; [|done].
  destruct (is_EOF e); [done|]. by cbn.
Qed.

End Buffered.

Lemma nonce_fits : 32 ≤ defaultBufSize.
Proof. apply Nat.leb_le. vm_compute. reflexivity. Qed.

(** The walk through the body of [sendPingToPeer], once the stream is
    open. *)
Ltac ping_walk :=
  apply (preserves_bind _); [apply emits_on_lift, emits_consult|]; intros now;
  apply (preserves_bind _); [by apply emits_on_lift, emits_call|];
  intros [e|]; [apply (preserves_ret _)|];
  apply (preserves_bind _); [by apply emits_on_lift, emits_call|];
  intros [got [e|]]; [apply (preserves_ret _)|];
  intros m1; apply (bind_rel _);
    [unfold lift; rewrite Writer_Write_fresh;
       [cbn; split; [done|reflexivity]
       |rewrite length_resize; apply nonce_fits]|];
  intros [[n err] b] m2 Hw; unfold lift in Hw;
  rewrite Writer_Write_fresh in Hw
    by (rewrite length_resize; apply nonce_fits);
  injection Hw as <- <- <- <-;
  apply (bind_rel _);
    [apply emits_on_lift, Writer_Flush_quiet; cbn; by rewrite ?length_resize|];
  intros [[e|] b] m3 _; [reflexivity|];
  apply (bind_rel _); [apply emits_on_lift, read_pong_quiet|];
  intros [e|b2] m4 _; [reflexivity|];
  destruct (negb _); [|reflexivity];
  apply (bind_rel _); [by apply emits_on_lift, emits_emit|];
  intros _ m5 _; reflexivity.

Section Ping_path.

Context {W : Type}.
Variable col : Collaborators W.

Local Abbreviation whole := (λ sent : list byte, length sent = defaultBufSize).
Local Abbreviation nonce := (λ sent : list byte, length sent = 32).

Lemma Writer_ReadFrom_loop_whole fuel b r n :
  length (w_buf b) ≤ defaultBufSize →
  preserves (emits (W := W) (writes whole)) (Writer_ReadFrom_loop col fuel b r n).
Proof.
  revert b n. induction fuel as [|fuel IH]; intros b n Hb w;
    cbn [Writer_ReadFrom_loop]; [reflexivity|].
  apply (bind_rel _).
  { destruct (Available b =? 0) eqn:Ha; [|reflexivity].
    apply Writer_Flush_quiet. apply Nat.eqb_eq in Ha. unfold Available in Ha. lia. }
  intros [err1 b1] w1 Hstep.
  assert (err1 = None → length (w_buf b1) ≤ defaultBufSize) as Hb1.
  { destruct (Available b =? 0).
    - destruct (Writer_Flush_returns col b w) as (err & b' & w' & HF & Hempty).
      rewrite HF in Hstep. injection Hstep as -> -> _.
      intros He. destruct (Hempty He) as [-> _]. cbn. lia.
    - injection Hstep as _ <- _. done. }
  destruct err1 as [e|]; [reflexivity|]. specialize (Hb1 eq_refl).
  apply (bind_rel _); [apply read_some_quiet|].
  intros res w2 Hres.
  destruct (read_some_returns col maxConsecutiveEmptyReads r (Available b1) w1)
    as (res' & w2' & HR & Hlen).
  rewrite HR in Hres. injection Hres as -> ->.
  destruct res as [[got err]|]; [|reflexivity].
  specialize (Hlen got err eq_refl). unfold Available in Hlen.
  assert (length (w_buf b1 ++ got) ≤ defaultBufSize) as Hb2.
  { rewrite length_app. lia. }
  cbn zeta. destruct err as [e|]; [|by apply IH].
  destruct (is_EOF e); [|reflexivity].
  match goal with
  | |- context [Available ?x =? 0] => destruct (Available x =? 0) eqn:Ha
  end; [|reflexivity].
  apply (bind_rel _).
  - apply Writer_Flush_quiet. apply Nat.eqb_eq in Ha.
    unfold Available in Ha. cbn [w_buf] in *. lia.
  - intros [err b3] w3 _. reflexivity.
Qed.

Lemma io_Copy_whole fuel s :
  preserves (emits (W := W) (writes whole))
    (io_Copy col fuel (bufio_NewWriter s) (bufio_NewReader s)).
Proof.
  intros w. unfold io_Copy. apply (bind_rel _).
  { cbn [r_buf bufio_NewReader]. rewrite Writer_Write_fresh; [reflexivity|].
    cbn. lia. }
  intros [[n err] b] w' Hw. cbn [r_buf bufio_NewReader] in Hw.
  rewrite Writer_Write_fresh in Hw by (cbn; lia).
  injection Hw as <- <- <- <-.
  apply (bind_rel _); [|intros [[m err] b] w'' _; reflexivity].
  unfold Writer_ReadFrom. cbn [w_err]. apply Writer_ReadFrom_loop_whole.
  cbn. lia.
Qed.

(** X1. Whatever the stream delivers and however long the copy runs, every
    write [pingHandler] makes to the stream carries exactly one full buffer
    of 4096 bytes, and the node is left as it was: what does not fill a
    buffer is never written back. *)
Theorem pingHandler_writes_whole_buffers stream fuel (m : machine W) :
  emits_on (writes whole) m (pingHandler col stream fuel m).2.
Proof.
  revert m. change (preserves (emits_on (W := W) (writes whole))
                      (pingHandler col stream fuel)).
  unfold pingHandler, defer_Close, with_stream.
  destruct stream as [s|]; [|apply (preserves_raise _)].
  apply (preserves_defer _).
  { apply emits_on_lift. by apply emits_call. }
  apply (preserves_bind _); [apply emits_on_get_node|]. intros p.
  destruct (state p) as [st|]; [|by apply emits_on_lift, emits_emit].
  destruct (Peers st); [|by apply emits_on_lift, emits_emit].
  apply (preserves_bind _); [apply emits_on_lift, io_Copy_whole|].
  intros [[n err] b]. destruct err; [by apply emits_on_lift, emits_emit|].
  apply (preserves_ret _).
Qed.



End Ping_path.

Lemma lift_ends {W A} (c : Run (world W) A) (m : machine W) :
  (c (env m)).1 ≠ Diverged → (lift c m).1 ≠ Diverged.
Proof. done. Qed.

Lemma bind_ends {S A B} (c : Run S A) (k : A → Run S B) s :
  (c s).1 ≠ Diverged →
  (∀ a s', c s = (Returned a, s') → (k a s').1 ≠ Diverged) →
  ((c ≫= k) s).1 ≠ Diverged.
Proof.
  intros Hc Hk. unfold mbind, Run_bind.
  destruct (c s) as [[a| |] s']; [by apply Hk|done..].
Qed.

(** Once the stream is open, the rest of [sendPingToPeer] ends in the first
    pass of its loop. *)
Ltac ping_ends :=
  apply bind_ends; [done|]; intros now m1 _;
  apply bind_ends; [done|]; intros [e|] m2 _; [done|];
  apply bind_ends; [done|]; intros [got [e|]] m3 _; [done|];
  apply bind_ends;
    [apply lift_ends; rewrite Writer_Write_fresh; [done|];
     rewrite length_resize; apply nonce_fits|];
  intros [[n [e|]] b] m4 _; [done|];
  apply bind_ends;
    [apply lift_ends;
     match goal with
     | |- context [Writer_Flush ?c ?wr ?w] =>
         destruct (Writer_Flush_returns c wr w) as (? & ? & ? & -> & _)
     end; done|];
  intros [[e|] b'] m5 _; [done|];
  apply bind_ends; [apply lift_ends, read_pong_ends|];
  intros [e|b2] m6 _; [done|];
  destruct (negb _); [|done];
  apply bind_ends; [done|]; by intros _ m7 _.

Section Endings.

Context {W : Type}.
Variable col : Collaborators W.

(** A body that ends is followed by the deferred [Close], which is then
    the last event. *)
Lemma defer_Close_last P s (body : Run (machine W) (option error)) m :
  preserves (emits_on P) body → (body m).1 ≠ Diverged →
  (defer (lift (Close col s)) body m).1 ≠ Diverged ∧
  ∃ evs, trace (env (defer (lift (Close col s)) body m).2)
         = trace (env m) ++ evs ++ [ev_Close s].
Proof.
  intros Hb Hend. specialize (Hb m). unfold defer.
  destruct (body m) as [[a| |] m1]; [| |done];
    destruct Hb as [_ (evs & Ht & _)]; cbn in *;
    (split; [done|]); exists evs; by rewrite Ht, app_assoc.
Qed.

Lemma defer_ends {S A} (d : Run S unit) (body : Run S A) s :
  (body s).1 ≠ Diverged → (∀ s', (d s').1 ≠ Diverged) →
  (defer d body s).1 ≠ Diverged.
Proof.
  intros Hb Hd. unfold defer.
  destruct (body s) as [[a| |] s1]; [| |done];
    specialize (Hd s1); by destruct (d s1) as [[[]| |] s2].
Qed.

Lemma sendPingToPeer_ends pr fuel (m : machine W) :
  (sendPingToPeer col pr (S fuel) m).1 ≠ Diverged.
Proof.
  unfold sendPingToPeer. destruct pr as [peer|]; [|done].
  apply bind_ends; [done|]. intros p m0 _.
  destruct (state p) as [st|]; [|done]. destruct (Host st) as [h|]; [|done].
  apply bind_ends; [done|]. intros [stream [e|]] m1' _; [done|].
  unfold defer_Close, with_stream. destruct stream as [s|]; [|done].
  apply defer_ends; [|done]. ping_ends.
Qed.

(** X3. [sendPingToPeer] has two ways to end, and it takes one of them in
    the first pass of its read loop: it returns an error or it panics. It
    never returns nil and is never still reading after that pass. *)
Theorem sendPingToPeer_fails_or_panics pr fuel (m : machine W) :
  (∃ e, (sendPingToPeer col pr (S fuel) m).1 = Returned (Some e)) ∨
  (∃ why, (sendPingToPeer col pr (S fuel) m).1 = Panicked why).
Proof.
  pose proof (sendPingToPeer_ends pr fuel m) as Hends.
  pose proof (sendPingToPeer_never_nil col pr (S fuel) m) as Hnil.
  destruct (sendPingToPeer col pr (S fuel) m).1 as [[e|]|why|];
    [left|done|right|done]; by eexists.
Qed.

(** X4. When the ping stream has been opened, the last thing
    [sendPingToPeer] does is to close it, on every way out: an error, a
    mismatch or a panic. *)
Theorem sendPingToPeer_closes_stream peer st h s fuel (m : machine W) :
  state (node m) = Some st → Host st = Some h →
  (NewStream col h (Cfg_Peer_ID peer) (ProtocolPing (Defaults col))
     (ext (env m))).1 = (Some s, None) →
  ∃ evs, trace (env (sendPingToPeer col (Some peer) (S fuel) m).2)
         = trace (env m) ++ evs ++ [ev_Close s].
Proof.
  intros Hst Hh HNew. unfold sendPingToPeer.
  unfold mbind at 1, Run_bind at 1. cbn [get_node]. rewrite Hst, Hh.
  unfold mbind at 1, Run_bind at 1. cbn [lift call fst snd]. rewrite HNew.
  unfold defer_Close. cbn [with_stream].
  match goal with
  | |- context [defer _ ?body ?m1] =>
      destruct (defer_Close_last (writes (λ sent, length sent = 32)) s body m1)
        as [_ (evs & ->)]
  end.
  - ping_walk.
  - ping_ends.
  - cbn. eexists (_ :: evs). by rewrite <- app_assoc.
Qed.

End Endings.

Lemma news_app {W} (m m' : machine W) evs :
  trace (env m') = trace (env m) ++ evs → news m m' = evs.
Proof. intros H. unfold news. rewrite H. apply drop_app_length. Qed.

Ltac news_norm :=
  unfold news; cbn [trace env snd fst]; rewrite <- ?app_assoc;
  first [rewrite drop_app_length | rewrite drop_all].

Section Redial.

Context {W : Type}.
Variable col : Collaborators W.

(** X5. [protocolHandler] starts the redial goroutine in one case only: the
    state and the peer store are there, the remote address parses, the peer
    store registers the peer and the peer reports, without error, that it is
    not writable; the goroutine is started for that peer. *)
Theorem protocolHandler_redials_unwritable_only s pr (m : machine W) :
  ev_go_dialPeers pr ∈ news m (protocolHandler col (Some s) m).2 ↔
  ∃ st prs pinfo kp peer,
    state (node m) = Some st ∧ Peers st = Some prs ∧
    InfoFromP2pAddr col (RemoteMultiaddr s) = (Some pinfo, None) ∧
    (Peers_Add col prs pinfo (ext (env m))).1 = (Some kp, None) ∧
    kp_Peer kp = Some peer ∧ pr = Some peer ∧
    (IsWritable col peer (Peers_Add col prs pinfo (ext (env m))).2).1
    = (false, None).
Proof.
  unfold protocolHandler, defer_Close, with_stream, defer, Close. run_simpl.
  destruct (state (node m)) as [st|] eqn:Hst; run_simpl.
  2:{ news_norm. split; [set_solver|]. by intros (? & ? & ? & ? & ? & ? & _). }
  destruct (Peers st) as [prs|] eqn:Hprs; run_simpl.
  2:{ news_norm. split; [set_solver|].
      intros (? & ? & ? & ? & ? & ? & ? & _). congruence. }
  destruct (InfoFromP2pAddr col (RemoteMultiaddr s)) as [pinfo err] eqn:Hinfo.
  destruct err as [e|]; run_simpl.
  { news_norm. split; [set_solver|].
    by intros (? & ? & ? & ? & ? & _ & _ & ? & _). }
  destruct pinfo as [pinfo|]; run_simpl.
  2:{ news_norm. split; [set_solver|].
      by intros (? & ? & ? & ? & ? & _ & _ & ? & _). }
  destruct (Peers_Add col prs pinfo (ext (env m))) as [[kp err] x] eqn:Hadd.
  cbn [fst snd].
  assert (∀ st' prs' pinfo' kp' peer',
            Some st = Some st' → Peers st' = Some prs' →
            (Some pinfo, @None error) = (Some pinfo', None) →
            (Peers_Add col prs' pinfo' (ext (env m))).1 = (Some kp', None) →
            kp_Peer kp' = Some peer' →
            (IsWritable col peer' (Peers_Add col prs' pinfo' (ext (env m))).2).1
            = (false, None) →
            kp = Some kp' ∧ err = None ∧ kp_Peer kp' = Some peer' ∧
            (IsWritable col peer' x).1 = (false, None)) as Hinv.
  { intros st' prs' pinfo' kp' peer' [= <-] Hp [= <-] Ha Hk Hw.
    rewrite Hprs in Hp. injection Hp as <-. rewrite Hadd in Ha, Hw.
    cbn in Ha, Hw. by injection Ha as -> ->. }
  destruct err as [e|]; run_simpl.
  { news_norm. split; [set_solver|].
    intros (? & ? & ? & ? & ? & H1 & H2 & H3 & H4 & H5 & _ & H7).
    by destruct (Hinv _ _ _ _ _ H1 H2 H3 H4 H5 H7) as (_ & ? & _). }
  destruct kp as [kp|]; cbn [mbind option_bind]; run_simpl.
  2:{ news_norm. split; [set_solver|].
      intros (? & ? & ? & ? & ? & H1 & H2 & H3 & H4 & H5 & _ & H7).
      by destruct (Hinv _ _ _ _ _ H1 H2 H3 H4 H5 H7) as (? & _). }
  destruct (kp_Peer kp) as [peer|] eqn:Hpeer; run_simpl.
  2:{ news_norm. split; [set_solver|].
      intros (? & ? & ? & ? & ? & H1 & H2 & H3 & H4 & H5 & _ & H7).
      destruct (Hinv _ _ _ _ _ H1 H2 H3 H4 H5 H7) as ([= <-] & _ & ? & _).
      congruence. }
  destruct (IsWritable col peer x) as [[ok err] y] eqn:Hw. cbn [fst snd].
  destruct err as [e|]; run_simpl.
  { news_norm. split; [set_solver|].
    intros (? & ? & ? & ? & ? & H1 & H2 & H3 & H4 & H5 & _ & H7).
    destruct (Hinv _ _ _ _ _ H1 H2 H3 H4 H5 H7) as ([= <-] & _ & Hk & Hw').
    rewrite Hpeer in Hk. injection Hk as <-. by rewrite Hw in Hw'. }
  destruct ok; run_simpl.
  { news_norm. split; [set_solver|].
    intros (? & ? & ? & ? & ? & H1 & H2 & H3 & H4 & H5 & _ & H7).
    destruct (Hinv _ _ _ _ _ H1 H2 H3 H4 H5 H7) as ([= <-] & _ & Hk & Hw').
    rewrite Hpeer in Hk. injection Hk as <-. by rewrite Hw in Hw'. }
  news_norm. split.
  - intros Hin. assert (pr = Some peer) as -> by set_solver.
    exists st, prs, pinfo, kp, peer. rewrite Hadd. cbn. by rewrite Hw.
  - intros (? & ? & ? & ? & ? & H1 & H2 & H3 & H4 & H5 & -> & H7).
    destruct (Hinv _ _ _ _ _ H1 H2 H3 H4 H5 H7) as ([= <-] & _ & Hk & _).
    rewrite Hpeer in Hk. injection Hk as <-. set_solver.
Qed.

End Redial.

Section Starting.

Context {W : Type}.
Variable col : Collaborators W.

(** X6. A [Start] that does not return nil leaves the node as it was: the
    host is published by the last statement only, so a node that was not
    started is not started after a failed [Start]. *)
Theorem Start_failure_leaves_node (m : machine W) :
  (Start col m).1 ≠ Returned None → node (Start col m).2 = node m.
Proof.
  unfold Start, step, step_. run_cases; done.
Qed.

Lemma Start_success_inv (m m' : machine W) :
  Start col m = (Returned None, m') →
  ∃ st h, state (node m) = Some st ∧ node m' = set_Host (node m) st h.
Proof.
  unfold Start, step, step_.
  destruct (cfg (node m)) as [cfgv|] eqn:Hc; run_simpl; [|rewrite Hc; done].
  rewrite Hc.
  destruct (state (node m)) as [st|]; [|done].
  run_cases; intros [= <-]; by eexists _, _.
Qed.

(** X7. A [Start] that returns nil has changed the node in one place: the
    state now holds a host. [IsStarted] then reports whether that host has an
    address at the time it is asked. *)
Theorem Start_success_publishes_host (m m' : machine W) :
  Start col m = (Returned None, m') →
  ∃ st h,
    state (node m) = Some st ∧
    node m' = set_Host (node m) st h ∧
    ∀ x t, IsStarted col (mkMachine (node m') (mkWorld x t))
           = (Returned (negb (length (Addrs col h x) =? 0)),
              mkMachine (node m') (mkWorld x t)).
Proof.
  intros (st & h & Hst & Hnode)%Start_success_inv.
  exists st, h. split_and!; [done..|]. intros x t.
  rewrite IsStarted_reports. cbn [node env ext]. by rewrite Hnode.
Qed.



End Starting.

Section Life.

Context {W : Type}.
Variable col : Collaborators W.






(** The node that a successful [New] returns. *)
Lemma New_success_inv ctx cancel ch cfg c (w w' : world W) p :
  New col ctx cancel ch cfg c w = (Returned (Some p, None), w') →
  ∃ cfgv c2 prs snc,
    cfg = Some cfgv ∧ cfg_P2P cfgv = Some c2 ∧
    p = {| state := Some {| Chain := c; Config := cfg;
                            SyncState := Some mkSyncState; Peers := prs;
                            Host := None |};
           cfg := cfg; ctx := ctx; ch := ch; sync := snc; cancel := cancel;
           dialQueue := ∅ |}.
Proof.
  unfold New. destruct cfg as [cfgv|]; [|done].
  destruct (cfg_P2P cfgv) as [c2|] eqn:Hc2; [|done].
  destruct c as [cv|]; [|done]. run_simpl.
  destruct (peers_New col cfgv (ext w)) as [[prs [e|]] x]; run_simpl; [done|].
  destruct (sync_New col ctx cfgv cv x) as [[snc [e|]] y]; run_simpl; [done|].
  intros [= <- <-]. by eexists _, _, _, _.
Qed.


(** X10. The life of a node: built by [New], started by a [Start] that
    returns nil, it is stopped by a [Stop] that returns nil, calls the
    cancellation function that was given to [New], once, and nothing else,
    and leaves the node as [Start] left it, its dial queue still empty. *)
Theorem New_Start_Stop ctx0 cancel0 ch0 cfg0 c (w w' : world W) p x m2 :
  New col ctx0 cancel0 ch0 cfg0 c w = (Returned (Some p, None), w') →
  Start col (mkMachine p x) = (Returned None, m2) →
  ∃ m3,
    Stop col m2 = (Returned None, m3) ∧
    node m3 = node m2 ∧
    news m2 m3 = match cancel0 with Some f => [ev_cancel f] | None => [] end ∧
    dialQueue (node m3) = ∅.
Proof.
  intros HNew HStart. destruct (New_success_inv _ _ _ _ _ _ _ _ HNew)
    as (cfgv & c2 & prs & snc & -> & Hc2 & ->).
  destruct (Start_success_inv col _ _ HStart) as (st & h & [= <-] & Hnode).
  unfold Stop. run_simpl. rewrite Hnode. cbn [state set_Host Host cancel].
  destruct cancel0 as [f|]; run_simpl; eexists; (split; [reflexivity|]);
    cbn [node]; rewrite Hnode; (split_and!; [done| |done]); by news_norm.
Qed.

End Life.

Section Goroutines.

Context {W : Type}.
Variable col : Collaborators W.

Local Abbreviation backoff := (DialBackoff (Defaults col)).

Lemma effect_dialable b g dq dq' k :
  effect b g dq dq' → dialable dq k → dialable dq' k.
Proof.
  intros [->|peer now _ ->|k0 q0 _ Hk0 ->] (q & pr & Hq & Hp); [by exists q, pr| |].
  - destruct (decide (GetID peer = k)) as [<-|Hne].
    + unfold dialable. rewrite lookup_insert_eq. by eexists _, peer.
    + exists q, pr. by rewrite lookup_insert_ne.
  - destruct (decide (k0 = k)) as [<-|Hne].
    + unfold dialable. rewrite lookup_insert_eq. eexists _, pr.
      split; [done|]. cbn. congruence.
    + exists q, pr. by rewrite lookup_insert_ne.
Qed.

Lemma queued_finds k q (m : machine W) :
  dialQueue (node m) !! k = Some (Some q) → queued k m = (Returned q, m).
Proof. intros Hq. unfold queued. run_simpl. by rewrite Hq. Qed.

(** [dialPeer] returns, and leaves the node as it was. *)
Lemma dialPeer_returns pr (m : machine W) :
  ∃ err m1, dialPeer col pr m = (Returned err, m1) ∧ node m1 = node m.
Proof.
  unfold dialPeer. destruct pr as [peer|]; [|by eexists _, _].
  unfold mbind at 1, Run_bind at 1. rewrite IsStarted_reports.
  destruct (state (node m) ≫= Host) as [h|] eqn:Hh; [|by eexists _, _].
  destruct (negb _); [by eexists _, _|].
  unfold mbind at 1, Run_bind at 1. cbn [get_node]. rewrite Hh.
  run_cases; by eexists _, _.
Qed.

(** A statement of [dialPeers] whose entry in hand is in the queue returns,
    and the entry that the goroutine then has in hand is in the queue. *)
Lemma dialPeers_step_holds g (m : machine W) :
  (∀ k, in_hand g = Some k → dialable (dialQueue (node m)) k) →
  ∃ g', (dialPeers_step col g m).1 = Returned g' ∧
        ∀ k, in_hand g' = Some k →
             dialable (dialQueue (node (dialPeers_step col g m).2)) k.
Proof.
  intros Hg.
  assert (∀ (r : outcome dialing * machine W) g',
            r.1 = Returned g' → in_hand g' = None →
            ∃ g', r.1 = Returned g' ∧
                  ∀ k, in_hand g' = Some k → dialable (dialQueue (node r.2)) k)
    as Hidle.
  { intros r g' Hr Hnone. exists g'. split; [done|]. intros k. by rewrite Hnone. }
  destruct g as [pr|[peer|]|peer| | |now|now [|k ks]|now k ks|now k ks|now k ks|];
    cbn [dialPeers_step].
  - unfold mbind, Run_bind. rewrite IsStarted_reports.
    destruct (negb _); by eapply Hidle.
  - run_simpl. destruct (dialQueue (node m) !! GetID peer); by eapply Hidle.
  - by eapply Hidle.
  - by eapply Hidle.
  - unfold select. run_simpl.
    destruct (select_Done col _ _ _).1; by eapply Hidle.
  - by eapply Hidle.
  - by eapply Hidle.
  - by eapply Hidle.
  - run_simpl. destruct (dialQueue (node m) !! k) as [[q|]|] eqn:Hk;
      [|by eapply Hidle..].
    destruct (now <? NextDial q)%Z; [by eapply Hidle|].
    destruct (Peer q) as [peer|] eqn:Hp; [|by eapply Hidle].
    eexists. split; [done|]. intros ? [= <-]. by exists q, peer.
  - destruct (Hg k eq_refl) as (q & peer & Hq & Hp).
    unfold mbind, Run_bind. rewrite (queued_finds _ _ _ Hq), Hp.
    run_simpl. destruct (IsActive col peer _).1 as [active err].
    destruct (bool_decide _ || active); [by eapply Hidle|].
    eexists. split; [done|]. intros ? [= <-]. by exists q, peer.
  - destruct (Hg k eq_refl) as (q & peer & Hq & Hp).
    unfold mbind, Run_bind. rewrite (queued_finds _ _ _ Hq).
    run_simpl. eexists. split; [done|]. intros ? [= <-].
    unfold dialable. cbn. rewrite lookup_insert_eq. by eexists _, peer.
  - destruct (Hg k eq_refl) as (q & peer & Hq & Hp).
    unfold mbind, Run_bind. rewrite (queued_finds _ _ _ Hq).
    destruct (dialPeer_returns (Peer q) m) as (err & m1 & -> & Hn).
    destruct err as [e|]; [|by eapply Hidle].
    rewrite (queued_finds k q m1) by by rewrite Hn. rewrite Hp.
    by eapply Hidle.
  - by eapply Hidle.
Qed.

Lemma turn_holds i gs (m : machine W) :
  holding gs (dialQueue (node m)) →
  ∃ gs', (turn col i gs m).1 = Returned gs' ∧
         holding gs' (dialQueue (node (turn col i gs m).2)).
Proof.
  intros Hh. unfold turn. destruct (gs !! i) as [g|] eqn:Hi; [|by exists gs].
  unfold mbind, Run_bind.
  pose proof (dialPeers_step_effect col g m) as He.
  destruct (dialPeers_step_holds g m) as (g' & Hret & Hg');
    [intros k; by apply (Hh i g k)|].
  destruct (dialPeers_step col g m) as [o m1]; cbn [fst snd] in *. subst o.
  eexists. split; [done|]. cbn [fst snd]. intros j g0 k.
  rewrite (lookup_turn _ _ _ _ _ Hi).
  destruct (decide (i = j)) as [<-|_].
  - intros [= <-]. apply Hg'.
  - intros Hj Hk. eapply effect_dialable; [done|]. by apply (Hh j g0 k).
Qed.

Lemma interleaving_holds schedule gs (m : machine W) :
  holding gs (dialQueue (node m)) →
  ∃ gs', (interleaving col schedule gs m).1 = Returned gs'.
Proof.
  revert gs m. induction schedule as [|i rest IH]; intros gs m Hh;
    cbn [interleaving]; [by exists gs|].
  unfold mbind, Run_bind.
  destruct (turn_holds i gs m Hh) as (gs' & Hret & Hh').
  destruct (turn col i gs m) as [o m1]; cbn [fst snd] in *. subst o.
  by apply IH.
Qed.

(** X11. However many calls of [dialPeers] run on a node, for whatever peers
    (nil among them), and however their statements interleave, none of them
    dereferences nil: every statement returns. A nil entry of the queue, or
    an entry without a peer, is passed over. *)
Theorem dialPeers_dereferences_no_nil schedule prs (m : machine W) :
  ∃ gs, (interleaving col schedule (at_IsStarted <$> prs) m).1 = Returned gs.
Proof.
  apply interleaving_holds. intros i g k [pr [-> _]]%list_lookup_fmap_Some.
  done.
Qed.

(** X12. However the calls of [dialPeers] interleave, the queue loses no key
    and gains none but the identities of the peers that the calls were
    given: a call for a peer that is queued adds nothing, and calls that
    are all for one peer add one key at most. *)
Theorem dialPeers_adds_given_identities_only schedule gs (m : machine W) :
  let dq := dialQueue (node m) in
  let dq' := dialQueue (node (interleaving col schedule gs m).2) in
  dom dq ⊆ dom dq' ∧ dom dq' ⊆ dom dq ∪ identities gs ∧
  (∀ peer, identities gs ⊆ {[GetID peer]} → size dq' ≤ S (size dq)).
Proof.
  cbn zeta. destruct (interleaving_keys col schedule gs m) as [Hsub Hsup].
  split_and!; [done..|]. intros peer. apply interleaving_one_key.
Qed.


End Goroutines.

Ltac station_simpl :=
  repeat (cbn [fst snd node env ext trace st_node st_ext st_trace st_calls] in *;
          unfold mbind, mret, Run_bind, Run_ret, on_world, on_machine, service,
                 the_node, with_conn, lift, call, consult, emit, observe,
                 get_node, set_node, raise, diverge, logger_Info, logger_Warn,
                 logger_Error in *).

Ltac journal_norm :=
  unfold new_calls, new_events; cbn [st_calls st_trace snd fst];
  rewrite <- ?app_assoc; rewrite ?drop_app_length, ?drop_all.

Section Address_book.

Context {W : Type}.
Variable col : Collaborators W.
Variable svc : Services W.




End Address_book.

Section Requests.

Context {W : Type}.
Variable col : Collaborators W.
Variable svc : Services W.

(** The loop over the known peers asks the syncer for each of them, in
    order, whatever the answers. *)
Lemma request_each_calls sy ks (s : station W) :
  ∃ x t,
    request_each svc (Some sy) (Some <$> ks) s
    = (Returned (),
       mkStation (st_node s) x t
         (st_calls s ++ ((λ k, sc_RequestBlocks sy (kp_Peer k)) <$> ks))).
Proof.
  revert s. induction ks as [|k ks IH]; intros s; cbn [fmap list_fmap request_each].
  { destruct s. eexists _, _. cbn. by rewrite app_nil_r. }
  unfold mbind at 1, Run_bind at 1.
  unfold mbind at 1, Run_bind at 1. cbn [service].
  destruct (sync_RequestBlocks svc sy (kp_Peer k) (st_ext s)) as [[e|] x];
    cbn [fst snd]; station_simpl;
    match goal with
    | |- context [request_each svc (Some sy) (Some <$> ks) ?s1] =>
        destruct (IH s1) as (y & t & ->)
    end; eexists _, _; cbn; by rewrite <- app_assoc.
Qed.

(** X15. One tick of [requestAny], on a node with a peer store and a
    syncer, when the peer store lists its peers without error: the syncer
    is asked for the blocks of each known peer, once, in the order of the
    list, whether or not the requests before it failed; the tick returns
    and leaves the node as it was. *)
Theorem request_tick_asks_every_peer prs sy ks (s : station W) :
  state (st_node s) ≫= Peers = Some prs →
  sync (st_node s) = Some sy →
  (Peers_KnownPeers svc prs (st_ext s)).1 = (Some <$> ks, None) →
  let r := request_tick svc s in
  r.1 = Returned () ∧ st_node r.2 = st_node s ∧
  new_calls s r.2
  = sc_KnownPeers prs :: ((λ k, sc_RequestBlocks sy (kp_Peer k)) <$> ks).
Proof.
  intros Hp Hs Hk. cbn zeta.
  assert (∃ x t, request_tick svc s
                 = (Returned (),
                    mkStation (st_node s) x t
                      (st_calls s ++ sc_KnownPeers prs ::
                         ((λ k, sc_RequestBlocks sy (kp_Peer k)) <$> ks))))
    as (x & t & ->).
  { unfold request_tick. unfold mbind at 1, Run_bind at 1. cbn [the_node].
    rewrite Hp. unfold mbind at 1, Run_bind at 1. cbn [service fst snd].
    rewrite Hk, Hs.
    match goal with
    | |- context [request_each svc (Some sy) (Some <$> ks) ?s1] =>
        destruct (request_each_calls sy ks s1) as (y & t & ->)
    end. eexists _, _. cbn. by rewrite <- app_assoc. }
  split_and!; [done|done|]. unfold new_calls. cbn [snd st_calls].
  by rewrite drop_app_length.
Qed.

(** X16. When the peer store fails to list its peers, the tick asks the
    syncer for nothing: it logs the error and returns. *)
Theorem request_tick_skips_on_error prs kps e (s : station W) :
  state (st_node s) ≫= Peers = Some prs →
  (Peers_KnownPeers svc prs (st_ext s)).1 = (kps, Some e) →
  let r := request_tick svc s in
  r.1 = Returned () ∧ st_node r.2 = st_node s ∧
  new_calls s r.2 = [sc_KnownPeers prs] ∧
  new_events s r.2 = [ev_logger Error "[p2p] err requesting known peers"].
Proof.
  intros Hp Hk. cbn zeta.
  assert (request_tick svc s
          = (Returned (),
             mkStation (st_node s) (Peers_KnownPeers svc prs (st_ext s)).2
               (st_trace s ++ [ev_logger Error "[p2p] err requesting known peers"])
               (st_calls s ++ [sc_KnownPeers prs]))) as ->.
  { unfold request_tick. unfold mbind at 1, Run_bind at 1. cbn [the_node].
    rewrite Hp. unfold mbind at 1, Run_bind at 1. cbn [service fst snd].
    rewrite Hk. reflexivity. }
  split_and!; [done|done|by journal_norm..].
Qed.

End Requests.

Section Rpc.

Context {W : Type}.
Variable svc : Services W.


End Rpc.

Section Ping_loop.

Context {W : Type}.
Variable col : Collaborators W.

(** X18. [pingPeer] with a nil peer does not survive its first tick: the
    ping is refused, and the log of the refusal reads the identity of the
    peer through the nil interface. *)
Theorem pingPeer_nil_peer_panics reads fuel (m : machine W) :
  (select_Done col (ctx (node m)) (PingInterval (Defaults col)) (ext (env m))).1
  = false →
  (pingPeer col None reads (S fuel) m).1 = Panicked nil_dereference.
Proof.
  intros Hsel. cbn [pingPeer]. unfold select. run_simpl. by rewrite Hsel.
Qed.





End Ping_loop.

(** ** The further statements at work on the wire *)

Lemma sendPingToPeer_closes_stream_witness :
  ∃ evs, trace (env (sendPingToPeer wire_col (Some wire_peer) 1
                       (on_wire started_node echo_wire)).2)
         = [] ++ evs ++ [ev_Close wire_stream].
Proof.
  eapply (sendPingToPeer_closes_stream wire_col wire_peer _ wire_host wire_stream 0
            (on_wire started_node echo_wire)); reflexivity.
Defined.

Lemma Start_failure_leaves_node_witness :
  (Start busy_col (on_wire fresh_node echo_wire)).1
  = Returned (Some (net_error 98)) ∧
  node (Start busy_col (on_wire fresh_node echo_wire)).2 = fresh_node.
Proof.
  split; [vm_compute; reflexivity|].
  apply (Start_failure_leaves_node busy_col (on_wire fresh_node echo_wire)).
  vm_compute. discriminate.
Defined.

Lemma Start_success_publishes_host_witness :
  (Start wire_col (on_wire fresh_node echo_wire)).1 = Returned None ∧
  ∃ st h, state fresh_node = Some st ∧
          node (Start wire_col (on_wire fresh_node echo_wire)).2
          = set_Host fresh_node st h.
Proof.
  split; [vm_compute; reflexivity|].
  destruct (Start_success_publishes_host wire_col (on_wire fresh_node echo_wire)
              (Start wire_col (on_wire fresh_node echo_wire)).2)
    as (st & h & Hst & Hnode & _); [vm_compute; reflexivity|].
  exists st, h. split; [exact Hst|exact Hnode].
Defined.



Lemma New_Start_Stop_witness :
  ∃ m3,
    Stop wire_col (Start wire_col (on_wire fresh_node echo_wire)).2
    = (Returned None, m3) ∧
    news (Start wire_col (on_wire fresh_node echo_wire)).2 m3
    = [ev_cancel (cancel_func 0)].
Proof.
  destruct (New_Start_Stop wire_col (context 0) (Some (cancel_func 0)) (chan 0)
              (Some wire_cfg) (Some (chains 0)) (mkWorld echo_wire [])
              (mkWorld echo_wire [ev_peers_New wire_cfg; ev_sync_New wire_cfg])
              fresh_node (mkWorld echo_wire [])
              (Start wire_col (on_wire fresh_node echo_wire)).2)
    as (m3 & HStop & _ & Hnews & _); [vm_compute; reflexivity..|].
  exists m3. split; [exact HStop|exact Hnews].
Defined.


Lemma request_tick_asks_every_peer_witness :
  new_calls (at_station started_node echo_wire)
    (request_tick wire_svc (at_station started_node echo_wire)).2
  = [sc_KnownPeers (peers 0);
     sc_RequestBlocks (syncer 0) (Some wire_peer);
     sc_RequestBlocks (syncer 0) None].
Proof.
  apply (request_tick_asks_every_peer wire_svc (peers 0) (syncer 0)
           [mkKnownPeer (Some wire_peer); mkKnownPeer None]
           (at_station started_node echo_wire)); reflexivity.
Defined.

Lemma request_tick_skips_on_error_witness :
  new_calls (at_station started_node echo_wire)
    (request_tick deaf_svc (at_station started_node echo_wire)).2
  = [sc_KnownPeers (peers 0)].
Proof.
  apply (request_tick_skips_on_error deaf_svc (peers 0) [] (net_error 5)
           (at_station started_node echo_wire)); reflexivity.
Defined.

Lemma pingPeer_nil_peer_panics_witness :
  (pingPeer wire_col None 1 1 (on_wire started_node echo_wire)).1
  = Panicked nil_dereference.
Proof.
  apply (pingPeer_nil_peer_panics wire_col 1 0 (on_wire started_node echo_wire)).
  reflexivity.
Defined.

